(** * The event submission pipeline of the sentry-go client ([client.go])

    A shallow embedding of [client.go]: client construction, integration
    registration and listing, the capture entry points, the event pipeline
    ([processEvent], [prepareEvent]) and the panic recovery helpers.

    Conventions.
    - A Go pointer or interface value that may be [nil] is an [option].
    - A Go [float32] is a [spec_float] (IEEE 754 binary32: comparisons are
      exact, so [!=] and [>] are [SFeqb] and [SFltb]).
    - A Go [map[string]Integration] is a [gmap string Integration].
    - Calls that leave the file (the debug logger, the transport, the scope,
      the user callback, the integrations' hooks, the hub) are recorded in a
      trace, in program order: every function returns its result together
      with the calls it made.
    - What the operating system or the runtime answers (environment
      variables, clock, random generator, host name, [recover()]) is read
      from an [Env]. *)

From Stdlib Require Import ZArith String Ascii.
From Stdlib Require Import Floats.SpecFloat.
From stdpp Require Import base strings list gmap sorting.

#[local] Set Warnings "-clear-no-such-hyp".

Local Open Scope string_scope.
Local Open Scope list_scope.
Local Open Scope Z_scope.

(* ================================================================== *)
(** ** Data model *)
(* ================================================================== *)

(** A Go [error]: all the file ever does with one is call [Error()]. *)
Record error := Errorf { Error : string }.

(** [float32]. *)
Definition float32 : Type := spec_float.

(** The untyped constant [0.0] converted to [float32]. *)
Definition float32_zero : float32 := S754_zero false.

(** [1.0] as a binary32 number: mantissa [2^23], exponent [-23]. *)
Definition float32_one : float32 := S754_finite false 8388608 (-23).

(** The [spec_float]s that are binary32 numbers (24-bit mantissa, exponent
    of the infinities 128). On those, [SFcompare] is the order of the
    reals they denote. *)
Definition is_float32 (x : float32) : bool := valid_binary 24 128 x.

(** [x != y] and [x > y] on [float32]. *)
Definition float32_ne (x y : float32) : bool := negb (SFeqb x y).
Definition float32_gt (x y : float32) : bool := SFltb y x.

(** [io.Writer] values are only passed on; [os.Stdout] is one of them. *)
Definition Writer : Type := nat.
Definition os_Stdout : Writer := 1%nat.

(** The hub ("ambient client+scope pair") and [context.Context]: a context
    may carry a hub. A hub pointer is an [option Hub]. *)
Definition Hub : Type := nat.
Record Ctx := { ctxId : nat; hubOnContext : option Hub }.

(** Modelled from the spec: [HasHubOnContext] and [GetHubFromContext] are
    not part of client.go; the registry answers "is there an active
    client+scope attached to this propagation context" and "retrieve it". *)
Definition HasHubOnContext (ctx : Ctx) : bool :=
  match hubOnContext ctx with Some _ => true | None => false end.
Definition GetHubFromContext (ctx : Ctx) : option Hub := hubOnContext ctx.

Record SdkPackage := { SdkPackage_Name : string; SdkPackage_Version : string }.

Record SdkInfo := {
  SdkInfo_Name : string;
  SdkInfo_Version : string;
  SdkInfo_Integrations : list string;
  SdkInfo_Packages : list SdkPackage
}.

(** [Event]: the fields client.go reads or writes. *)
Record Event := {
  EventID : string;
  Timestamp : Z;
  Level : string;
  Message : string;
  ServerName : string;
  Sdk : SdkInfo;
  Platform : string;
  Transaction : string
}.

(** The zero value of [SdkInfo] and the literal [&Event{Message: m}]. *)
Definition SdkInfo_zero : SdkInfo :=
  {| SdkInfo_Name := ""; SdkInfo_Version := "";
     SdkInfo_Integrations := []; SdkInfo_Packages := [] |}.

Definition Event_of_Message (m : string) : Event :=
  {| EventID := ""; Timestamp := 0; Level := ""; Message := m;
     ServerName := ""; Sdk := SdkInfo_zero; Platform := ""; Transaction := "" |}.

(** Field assignments [event.F = v]. *)
Definition set_EventID (e : Event) (v : string) : Event :=
  {| EventID := v; Timestamp := Timestamp e; Level := Level e;
     Message := Message e; ServerName := ServerName e; Sdk := Sdk e;
     Platform := Platform e; Transaction := Transaction e |}.
Definition set_Timestamp (e : Event) (v : Z) : Event :=
  {| EventID := EventID e; Timestamp := v; Level := Level e;
     Message := Message e; ServerName := ServerName e; Sdk := Sdk e;
     Platform := Platform e; Transaction := Transaction e |}.
Definition set_Level (e : Event) (v : string) : Event :=
  {| EventID := EventID e; Timestamp := Timestamp e; Level := v;
     Message := Message e; ServerName := ServerName e; Sdk := Sdk e;
     Platform := Platform e; Transaction := Transaction e |}.
Definition set_ServerName (e : Event) (v : string) : Event :=
  {| EventID := EventID e; Timestamp := Timestamp e; Level := Level e;
     Message := Message e; ServerName := v; Sdk := Sdk e;
     Platform := Platform e; Transaction := Transaction e |}.
Definition set_Sdk (e : Event) (v : SdkInfo) : Event :=
  {| EventID := EventID e; Timestamp := Timestamp e; Level := Level e;
     Message := Message e; ServerName := ServerName e; Sdk := v;
     Platform := Platform e; Transaction := Transaction e |}.
Definition set_Platform (e : Event) (v : string) : Event :=
  {| EventID := EventID e; Timestamp := Timestamp e; Level := Level e;
     Message := Message e; ServerName := ServerName e; Sdk := Sdk e;
     Platform := v; Transaction := Transaction e |}.
Definition set_Transaction (e : Event) (v : string) : Event :=
  {| EventID := EventID e; Timestamp := Timestamp e; Level := Level e;
     Message := Message e; ServerName := ServerName e; Sdk := Sdk e;
     Platform := Platform e; Transaction := v |}.

(** [EventHint]: client.go only ever fills in [Context]. [&EventHint{}] is
    [EventHint_empty]. *)
Record EventHint := { Context : option Ctx }.
Definition EventHint_empty : EventHint := {| Context := None |}.

(** Modelled from the spec: the constant [LevelInfo] is declared outside
    client.go; the default severity level is "info". *)
Definition LevelInfo : string := "info".

(** The HTTP response a transport hands back, as far as the pipeline is
    concerned. *)
Record Response := { StatusCode : Z }.

(** The [EventModifier] interface (a scope): [ApplyToEvent] returns the
    event to go on with, or [nil]. *)
Record EventModifier := {
  ApplyToEvent : Event → option EventHint → option Event
}.
Definition Scope : Type := EventModifier.

(** The [Integration] interface. [integrationId] tells two instances with
    the same name apart; [SetupOnce] shows up in the trace. *)
Record Integration := { Name : string; integrationId : nat }.

(** The [Transport] interface. [Configure] shows up in the trace;
    [SendEvent] answers with a Go pair: a response pointer and an error. *)
Record Transport := {
  transportId : nat;
  SendEvent : Event → option Response * option error
}.

Definition Breadcrumb : Type := string.
Definition BreadcrumbHint : Type := unit.

Record ClientOptions := {
  Dsn : string;
  Debug : bool;
  SampleRate : float32;
  BeforeSend : option (Event → option EventHint → option Event);
  BeforeBreadcrumb :
    option (Breadcrumb → option BreadcrumbHint → option Breadcrumb);
  Integrations : option (list Integration);
  Options_Transport : option Transport;
  Options_ServerName : string;
  Release : string;
  Dist : string;
  Environment : string;
  MaxBreadcrumbs : Z;
  DebugWriter : option Writer
}.

Definition set_Dsn (o : ClientOptions) (v : string) : ClientOptions :=
  {| Dsn := v; Debug := Debug o; SampleRate := SampleRate o;
     BeforeSend := BeforeSend o; BeforeBreadcrumb := BeforeBreadcrumb o;
     Integrations := Integrations o; Options_Transport := Options_Transport o;
     Options_ServerName := Options_ServerName o; Release := Release o;
     Dist := Dist o; Environment := Environment o;
     MaxBreadcrumbs := MaxBreadcrumbs o; DebugWriter := DebugWriter o |}.
Definition set_Release (o : ClientOptions) (v : string) : ClientOptions :=
  {| Dsn := Dsn o; Debug := Debug o; SampleRate := SampleRate o;
     BeforeSend := BeforeSend o; BeforeBreadcrumb := BeforeBreadcrumb o;
     Integrations := Integrations o; Options_Transport := Options_Transport o;
     Options_ServerName := Options_ServerName o; Release := v;
     Dist := Dist o; Environment := Environment o;
     MaxBreadcrumbs := MaxBreadcrumbs o; DebugWriter := DebugWriter o |}.
Definition set_Environment (o : ClientOptions) (v : string) : ClientOptions :=
  {| Dsn := Dsn o; Debug := Debug o; SampleRate := SampleRate o;
     BeforeSend := BeforeSend o; BeforeBreadcrumb := BeforeBreadcrumb o;
     Integrations := Integrations o; Options_Transport := Options_Transport o;
     Options_ServerName := Options_ServerName o; Release := Release o;
     Dist := Dist o; Environment := v;
     MaxBreadcrumbs := MaxBreadcrumbs o; DebugWriter := DebugWriter o |}.

(** A parsed endpoint descriptor. *)
Record DsnT := { rawDsn : string }.

(** [Client]. The [Transport] field is never [nil] in a client that
    [NewClient] returned ([setupTransport] always installs one), and the
    pipeline dereferences it unguarded; it is a plain [Transport] here.
    [integrations] is a Go map, [nil] until [setupIntegrations] makes it. *)
Record Client := {
  options : ClientOptions;
  dsn : option DsnT;
  integrations : option (gmap string Integration);
  Client_Transport : Transport
}.

(** A value of type [interface{}], as [Recover] sees it: [nil], a value
    whose dynamic type implements [error], a value whose dynamic type is
    [string], or a value of any other dynamic type (an [int], a struct, ...).
    The built-in [string] has no methods, so no value is both. *)
Inductive iface :=
  | INil
  | IError (e : error)
  | IString (s : string)
  | IOther (dynType : string) (repr : Z).

(* ================================================================== *)
(** ** The outside world *)
(* ================================================================== *)

(** What the runtime answers during one call. *)
Record Env := {
  os_Getenv : string → string;
  uuid : string;                            (* uuid() *)
  time_Now_Unix : Z;                        (* time.Now().Unix() *)
  time_Now_UnixNano : Z;                    (* time.Now().UnixNano() *)
  rand_Float32 : Z → float32;    (* rand.New(rand.NewSource(seed)).Float32() *)
  os_Hostname : string * option error;      (* os.Hostname() *)
  recover : iface;                          (* recover() *)
  CurrentHub : Hub                          (* CurrentHub() *)
}.

(** Calls that leave client.go, as they appear in the trace. *)
Inductive Call :=
  | debugger_SetOutput (w : Writer)
  | debugger_Println (msg : string)
  | debugger_Printf (format arg : string)
  | Transport_Configure (t : Transport) (o : ClientOptions)
  | Integration_SetupOnce (i : Integration)
  | rand_draw (seed : Z)
  | Scope_ApplyToEvent (e : Event) (hint : option EventHint)
  | Options_BeforeSend (e : Event) (hint : option EventHint)
  | Transport_SendEvent (e : Event)
  | sentry_CaptureException (err : error)
  | sentry_CaptureMessage (msg : string)
  | Hub_CaptureException (h : option Hub) (err : error)
      (hint : option EventHint)
  | Hub_CaptureMessage (h : option Hub) (msg : string)
      (hint : option EventHint).

(** A computation that returns an [A] and the calls it made. *)
Definition Traced (A : Type) : Type := A * list Call.

Global Instance Traced_ret : MRet Traced := λ A x, (x, []).
Global Instance Traced_bind : MBind Traced := λ A B f m,
  let '(a, t1) := m in let '(b, t2) := f a in (b, t1 ++ t2).

Definition call (c : Call) : Traced unit := (tt, [c]).
Definition result {A} (m : Traced A) : A := fst m.
Definition trace {A} (m : Traced A) : list Call := snd m.

(** [sort.Strings]: increasing order for Go's [<] on strings, which compares
    byte by byte, as [String.le] does. *)
Definition sort_Strings (l : list string) : list string :=
  merge_sort String.le l.

(* ================================================================== *)
(** ** client.go *)
(* ================================================================== *)

Section Client.

(** Declared elsewhere in the package: the SDK version constant, the
    transport [new(HTTPTransport)] makes, and the endpoint-descriptor
    parser proper. *)
Variable VERSION : string.
Variable HTTPTransport : Transport.
Variable parseDsn : string → DsnT + error.

(** Modelled from the spec: [NewDsn] is not part of client.go. An empty
    or absent descriptor is not an error, and there is no descriptor
    object for it; any other descriptor either parses or is rejected with
    an error. *)
Definition NewDsn (rawURL : string) : option DsnT * option error :=
  if String.eqb rawURL "" then (None, None)
  else match parseDsn rawURL with
       | inl d => (Some d, None)
       | inr err => (None, Some err)
       end.

Definition setupTransport (client : Client) : Traced Client :=
  let transport :=
    match Options_Transport (options client) with
    | None => HTTPTransport
    | Some t => t
    end in
  call (Transport_Configure transport (options client));;
  mret {| options := options client; dsn := dsn client;
          integrations := integrations client;
          Client_Transport := transport |}.

(** The body of the [for ... range] of [setupIntegrations], from the map
    built so far. The format string is kept as the source spells it. *)
Fixpoint setupIntegrations_loop (l : list Integration)
    (m : gmap string Integration) : Traced (gmap string Integration) :=
  match l with
  | [] => mret m
  | integration :: rest =>
      let m := <[Name integration := integration]> m in
      call (Integration_SetupOnce integration);;
      call (debugger_Printf "Integration installed: %s\n" (Name integration));;
      setupIntegrations_loop rest m
  end.

Definition setupIntegrations (client : Client) : Traced Client :=
  match Integrations (options client) with
  | None => mret client
  | Some l =>
      m ← setupIntegrations_loop l ∅;
      mret {| options := options client; dsn := dsn client;
              integrations := Some m;
              Client_Transport := Client_Transport client |}
  end.

Definition NewClient (env : Env) (options : ClientOptions)
    : Traced (option Client * option error) :=
  (if Debug options then
     let debugWriter :=
       match DebugWriter options with
       | None => os_Stdout
       | Some w => w
       end in
     call (debugger_SetOutput debugWriter)
   else mret tt);;
  let options :=
    if String.eqb (Dsn options) ""
    then set_Dsn options (os_Getenv env "SENTRY_DSN") else options in
  let options :=
    if String.eqb (Release options) ""
    then set_Release options (os_Getenv env "SENTRY_RELEASE") else options in
  let options :=
    if String.eqb (Environment options) ""
    then set_Environment options (os_Getenv env "SENTRY_ENVIRONMENT")
    else options in
  let '(dsn, err) := NewDsn (Dsn options) in
  match err with
  | Some err => mret (None, Some err)
  | None =>
      (match dsn with
       | None => call (debugger_Println
                         "Sentry client initialized with an empty DSN")
       | Some _ => mret tt
       end);;
      let client := {| options := options; dsn := dsn;
                       integrations := None;
                       Client_Transport := HTTPTransport |} in
      client ← setupTransport client;
      client ← setupIntegrations client;
      mret (Some client, None)
  end.

Definition Options (client : Client) : ClientOptions := options client.

(** [for key := range client.integrations]: the keys, in the order the
    map happens to be walked in. Go leaves that order unspecified;
    [range_keys] is one such order. *)
Definition range_keys (m : option (gmap string Integration)) : list string :=
  match m with
  | None => []
  | Some m => (map_to_list m).*1
  end.

Definition listIntegrations (client : Client) : list string :=
  let integrations := range_keys (integrations client) in
  sort_Strings integrations.

Definition eventFromMessage (client : Client) (message : string) : Event :=
  Event_of_Message message.

Definition eventFromException (client : Client) (exception : error) : Event :=
  Event_of_Message (Error exception).

Definition prepareEvent (env : Env) (client : Client) (event : Event)
    (hint : option EventHint) (scope : EventModifier)
    : Traced (option Event) :=
  let event :=
    if String.eqb (EventID event) ""
    then set_EventID event (uuid env) else event in
  let event :=
    if Z.eqb (Timestamp event) 0
    then set_Timestamp event (time_Now_Unix env) else event in
  let event :=
    if String.eqb (Level event) ""
    then set_Level event LevelInfo else event in
  let event :=
    if String.eqb (ServerName event) "" then
      match os_Hostname env with
      | (hostname, None) => set_ServerName event hostname
      | (_, Some _) => event
      end
    else event in
  let event :=
    set_Sdk event
      {| SdkInfo_Name := "sentry.go";
         SdkInfo_Version := VERSION;
         SdkInfo_Integrations := listIntegrations client;
         SdkInfo_Packages :=
           [ {| SdkPackage_Name := "sentry-go";
                SdkPackage_Version := VERSION |} ] |} in
  let event := set_Platform event "go" in
  let event := set_Transaction event "Don't sneak into my computer please" in
  call (Scope_ApplyToEvent event hint);;
  mret (ApplyToEvent scope event hint).

Definition processEvent (env : Env) (client : Client) (event : Event)
    (hint : option EventHint) (scope : EventModifier)
    : Traced (option Response * option error) :=
  let options := Options client in
  dropped ←
    (if float32_ne (SampleRate options) float32_zero then
       call (rand_draw (time_Now_UnixNano env));;
       let randomFloat := rand_Float32 env (time_Now_UnixNano env) in
       mret (float32_gt randomFloat (SampleRate options))
     else mret false);
  if (dropped : bool) then
    mret (None, Some (Errorf "event dropped due to SampleRate hit"))
  else
    event ← prepareEvent env client event hint scope;
    match event with
    | None =>
        mret (None,
              Some (Errorf "event dropped by one of the EventProcessors"))
    | Some event =>
        match BeforeSend options with
        | Some beforeSend =>
            let h := match hint with
                     | Some hint => hint
                     | None => EventHint_empty
                     end in
            call (Options_BeforeSend event (Some h));;
            match beforeSend event (Some h) with
            | None =>
                mret (None,
                      Some (Errorf
                              "event dropped due to BeforeSend callback"))
            | Some event =>
                call (Transport_SendEvent event);;
                mret (SendEvent (Client_Transport client) event)
            end
        | None =>
            call (Transport_SendEvent event);;
            mret (SendEvent (Client_Transport client) event)
        end
    end.

Definition CaptureEvent (env : Env) (client : Client) (event : Event)
    (hint : option EventHint) (scope : EventModifier) : Traced unit :=
  r ← processEvent env client event hint scope;
  match snd r with
  | Some err => call (debugger_Println (Error err))
  | None => mret tt
  end.

Definition CaptureMessage (env : Env) (client : Client) (message : string)
    (hint : option EventHint) (scope : EventModifier) : Traced unit :=
  let event := eventFromMessage client message in
  CaptureEvent env client event hint scope.

Definition CaptureException (env : Env) (client : Client) (exception : error)
    (hint : option EventHint) (scope : EventModifier) : Traced unit :=
  let event := eventFromException client exception in
  CaptureEvent env client event hint scope.

(** [recoveredErr.(error)] and [recoveredErr.(string)]. *)
Definition assert_error (v : iface) : option error :=
  match v with IError e => Some e | _ => None end.
Definition assert_string (v : iface) : option string :=
  match v with IString s => Some s | _ => None end.
Definition is_nil (v : iface) : bool :=
  match v with INil => true | _ => false end.

Definition Recover (env : Env) (client : Client) (recoveredErr : iface)
    (scope : option Scope) : Traced unit :=
  let recoveredErr :=
    if is_nil recoveredErr then recover env else recoveredErr in
  if negb (is_nil recoveredErr) then
    (match assert_error recoveredErr with
     | Some err => call (sentry_CaptureException err)
     | None => mret tt
     end);;
    (match assert_string recoveredErr with
     | Some err => call (sentry_CaptureMessage err)
     | None => mret tt
     end)
  else mret tt.

Definition RecoverWithContext (env : Env) (client : Client) (ctx : Ctx)
    (recoveredErr : iface) (scope : option Scope) : Traced unit :=
  let recoveredErr :=
    if is_nil recoveredErr then recover env else recoveredErr in
  if negb (is_nil recoveredErr) then
    let currentHub :=
      if HasHubOnContext ctx
      then GetHubFromContext ctx
      else Some (CurrentHub env) in
    (match assert_error recoveredErr with
     | Some err =>
         call (Hub_CaptureException currentHub err
                 (Some {| Context := Some ctx |}))
     | None => mret tt
     end);;
    (match assert_string recoveredErr with
     | Some err =>
         call (Hub_CaptureMessage currentHub err
                 (Some {| Context := Some ctx |}))
     | None => mret tt
     end)
  else mret tt.

End Client.

(** The [SetupOnce] calls of a trace, in order. *)
Definition setup_calls (tr : list Call) : list Integration :=
  omap (λ c, match c with Integration_SetupOnce i => Some i | _ => None end) tr.

(** A draw of the random generator lies in [[0,1)]. *)
Definition in_unit_interval (x : float32) : Prop :=
  SFleb float32_zero x = true ∧ SFltb x float32_one = true.

(** The hint the user filter is called with, given the capture call's. *)
Definition filter_hint (hint : option EventHint) : option EventHint :=
  Some (match hint with Some h => h | None => EventHint_empty end).

(** The calls [processEvent] makes once sampling has let the event through
    and the scope has been handed [prepared]. *)
Definition calls_after_scope (client : Client) (hint : option EventHint)
    (scope : EventModifier) (prepared : Event) : list Call :=
  match ApplyToEvent scope prepared hint with
  | None => []
  | Some e1 =>
      match BeforeSend (Options client) with
      | None => [Transport_SendEvent e1]
      | Some f =>
          Options_BeforeSend e1 (filter_hint hint) ::
          match f e1 (filter_hint hint) with
          | None => []
          | Some e2 => [Transport_SendEvent e2]
          end
      end
  end.

(** The options [NewClient] goes on with, once the three environment
    fallbacks are applied. *)
Definition options_after_fallbacks (env : Env) (options : ClientOptions)
    : ClientOptions :=
  let options :=
    if String.eqb (Dsn options) ""
    then set_Dsn options (os_Getenv env "SENTRY_DSN") else options in
  let options :=
    if String.eqb (Release options) ""
    then set_Release options (os_Getenv env "SENTRY_RELEASE") else options in
  if String.eqb (Environment options) ""
  then set_Environment options (os_Getenv env "SENTRY_ENVIRONMENT")
  else options.

(** The calls of [NewClient] before the endpoint descriptor is parsed. *)
Definition debug_setup (options : ClientOptions) : list Call :=
  if Debug options
  then [debugger_SetOutput (default os_Stdout (DebugWriter options))]
  else [].

(** The notice [NewClient] logs for an absent descriptor. *)
Definition empty_Dsn_notice : Call :=
  debugger_Println "Sentry client initialized with an empty DSN".

(* ================================================================== *)
(** ** Concrete runs *)
(* ================================================================== *)

Module Sample.

Definition VERSION : string := "0.0.1".

Definition transport : Transport :=
  {| transportId := 7;
     SendEvent := λ _, (Some {| StatusCode := 200 |}, None) |}.

Definition parseDsn (raw : string) : DsnT + error :=
  if String.prefix "https://" raw then inl {| rawDsn := raw |}
  else inr (Errorf "invalid scheme").

(** One half: mantissa [2^23], exponent [-24]. *)
Definition half : float32 := S754_finite false 8388608 (-24).

Definition env : Env :=
  {| os_Getenv := λ _, "";
     uuid := "9f86d081884c7d659a2feaa0c55ad015";
     time_Now_Unix := 1561000000;
     time_Now_UnixNano := 1561000000000000000;
     rand_Float32 := λ _, half;
     os_Hostname := ("build-host", None);
     recover := INil;
     CurrentHub := 1%nat |}.

Definition scope_id : EventModifier :=
  {| ApplyToEvent := λ e _, Some e |}.
Definition scope_veto : EventModifier :=
  {| ApplyToEvent := λ _ _, None |}.

Definition int_b : Integration := {| Name := "b"; integrationId := 1 |}.
Definition int_a : Integration := {| Name := "a"; integrationId := 2 |}.
Definition int_c : Integration := {| Name := "c"; integrationId := 3 |}.
Definition int_a' : Integration := {| Name := "a"; integrationId := 4 |}.

Definition opts (rate : float32)
    (beforeSend : option (Event → option EventHint → option Event))
    (ints : option (list Integration)) : ClientOptions :=
  {| Dsn := ""; Debug := false; SampleRate := rate;
     BeforeSend := beforeSend; BeforeBreadcrumb := None;
     Integrations := ints; Options_Transport := Some transport;
     Options_ServerName := ""; Release := ""; Dist := "";
     Environment := ""; MaxBreadcrumbs := 0; DebugWriter := None |}.

Definition client (rate : float32)
    (beforeSend : option (Event → option EventHint → option Event))
    : Client :=
  {| options := opts rate beforeSend None; dsn := None;
     integrations := None; Client_Transport := transport |}.

Definition keep : Event → option EventHint → option Event :=
  λ e _, Some e.
Definition reject : Event → option EventHint → option Event :=
  λ _ _, None.

Definition event : Event := Event_of_Message "boom".

(** [event] after the defaults and overwrites of [prepareEvent], for a
    client without integrations. *)
Definition prepared : Event :=
  {| EventID := "9f86d081884c7d659a2feaa0c55ad015";
     Timestamp := 1561000000;
     Level := "info";
     Message := "boom";
     ServerName := "build-host";
     Sdk := {| SdkInfo_Name := "sentry.go";
               SdkInfo_Version := VERSION;
               SdkInfo_Integrations := [];
               SdkInfo_Packages :=
                 [ {| SdkPackage_Name := "sentry-go";
                      SdkPackage_Version := VERSION |} ] |};
     Platform := "go";
     Transaction := "Don't sneak into my computer please" |}.

Definition client_plain : Client := client float32_zero None.
Definition client_keep : Client := client float32_zero (Some keep).
Definition client_reject : Client := client float32_zero (Some reject).
Definition client_one : Client := client float32_one (Some keep).

Definition with_Dsn (d : string) : ClientOptions :=
  set_Dsn (opts float32_zero None None) d.

Definition with_Integrations (l : list Integration) : ClientOptions :=
  opts float32_zero None (Some l).

End Sample.

(* ================================================================== *)
(** ** The debug logger *)
(* ================================================================== *)

(** [debugger] is one process-wide [log.Logger], created with
    [ioutil.Discard] as its output. A sink is where the logger writes:
    [None] is [ioutil.Discard]. *)
Definition Sink : Type := option Writer.
Definition debugger_initial : Sink := None.

(** A line handed to the logger. *)
Inductive LogLine :=
  | Line_Println (msg : string)
  | Line_Printf (format arg : string).

(** The lines a trace hands to the logger, in order. *)
Definition log_lines (tr : list Call) : list LogLine :=
  omap (λ c, match c with
             | debugger_Println msg => Some (Line_Println msg)
             | debugger_Printf format arg => Some (Line_Printf format arg)
             | _ => None
             end) tr.

(** What a trace does to the logger, from the sink it finds: the sink it
    leaves, and the lines that reached a writer, each with its writer.
    [SetOutput] replaces the sink; a line goes to the sink of the moment,
    and nowhere when that is [ioutil.Discard]. *)
Fixpoint debugger_run (sink : Sink) (tr : list Call)
    : Sink * list (Writer * LogLine) :=
  match tr with
  | [] => (sink, [])
  | c :: rest =>
      match c with
      | debugger_SetOutput w => debugger_run (Some w) rest
      | debugger_Println msg =>
          let '(final, out) := debugger_run sink rest in
          (final, match sink with
                  | Some w => (w, Line_Println msg) :: out
                  | None => out
                  end)
      | debugger_Printf format arg =>
          let '(final, out) := debugger_run sink rest in
          (final, match sink with
                  | Some w => (w, Line_Printf format arg) :: out
                  | None => out
                  end)
      | _ => debugger_run sink rest
      end
  end.

(** The calls one pass of the loop of [setupIntegrations] makes for each
    integration of [l], in order. *)
Definition install_calls (l : list Integration) : list Call :=
  l ≫= λ i, [Integration_SetupOnce i;
             debugger_Printf "Integration installed: %s\n" (Name i)].

(** The [Configure] calls of a trace, in order. *)
Definition configure_calls (tr : list Call)
    : list (Transport * ClientOptions) :=
  omap (λ c, match c with
             | Transport_Configure t o => Some (t, o)
             | _ => None
             end) tr.

(* ================================================================== *)
(** ** More concrete runs *)
(* ================================================================== *)

Module Edge.

(** A quarter, minus one half and two as binary32 numbers. *)
Definition quarter : float32 := S754_finite false 8388608 (-25).
Definition minus_half : float32 := S754_finite true 8388608 (-24).
Definition two : float32 := S754_finite false 8388608 (-22).

(** A transport whose delivery fails. *)
Definition transport_down : Transport :=
  {| transportId := 8;
     SendEvent := λ _, (None, Some (Errorf "503 Service Unavailable")) |}.

Definition client_quarter : Client := Sample.client quarter None.
Definition client_negative : Client := Sample.client minus_half None.
Definition client_two : Client := Sample.client two None.
Definition client_nan : Client := Sample.client S754_nan None.

Definition client_down : Client :=
  {| options := Sample.opts float32_zero None None; dsn := None;
     integrations := None; Client_Transport := transport_down |}.

(** A later moment on another host: new identifier, later clock, host name
    not determinable. *)
Definition env_later : Env :=
  {| os_Getenv := λ _, "";
     uuid := "0a1b2c3d4e5f60718293a4b5c6d7e8f9";
     time_Now_Unix := 1561000999;
     time_Now_UnixNano := 1561000999000000000;
     rand_Float32 := λ _, Sample.half;
     os_Hostname := ("", Some (Errorf "hostname: not available"));
     recover := INil;
     CurrentHub := 1%nat |}.

(** An environment that supplies the three fallbacks. *)
Definition env_vars : Env :=
  {| os_Getenv := λ k,
       if String.eqb k "SENTRY_DSN" then "https://key@example.org/1"
       else if String.eqb k "SENTRY_RELEASE" then "1.2.3"
       else if String.eqb k "SENTRY_ENVIRONMENT" then "staging"
       else "";
     uuid := "9f86d081884c7d659a2feaa0c55ad015";
     time_Now_Unix := 1561000000;
     time_Now_UnixNano := 1561000000000000000;
     rand_Float32 := λ _, Sample.half;
     os_Hostname := ("build-host", None);
     recover := INil;
     CurrentHub := 1%nat |}.

(** Options with the debug flag set, no writer given, nothing else. *)
Definition opts_debug (ints : option (list Integration)) : ClientOptions :=
  {| Dsn := ""; Debug := true; SampleRate := float32_zero;
     BeforeSend := None; BeforeBreadcrumb := None;
     Integrations := ints; Options_Transport := None;
     Options_ServerName := ""; Release := ""; Dist := "";
     Environment := ""; MaxBreadcrumbs := 0; DebugWriter := None |}.

(** Debug options with a descriptor the sample parser rejects, and with
    integrations. *)
Definition opts_debug_bad : ClientOptions :=
  set_Dsn (opts_debug None) "ftp://example.org/1".

Definition opts_debug_two : ClientOptions :=
  opts_debug (Some [Sample.int_b; Sample.int_a]).

End Edge.

(* ================================================================== *)
(** ** Properties *)
(* ================================================================== *)

(** *** Traces *)

Lemma trace_bind {A B} (m : Traced A) (f : A → Traced B) :
  trace (m ≫= f) = trace m ++ trace (f (result m)).
Proof.
  destruct m as [a t]. unfold mbind, Traced_bind, trace, result. simpl.
  destruct (f a); reflexivity.
Qed.

Lemma result_bind {A B} (m : Traced A) (f : A → Traced B) :
  result (m ≫= f) = result (f (result m)).
Proof.
  destruct m as [a t]. unfold mbind, Traced_bind, trace, result. simpl.
  destruct (f a); reflexivity.
Qed.

(** *** Comparisons on [float32] *)

Lemma SFcompare_antisym (x y : float32) (c : comparison) :
  SFcompare x y = Some c → SFcompare y x = Some (CompOpp c).
Proof.
  destruct x as [sx|sx| |sx mx ex], y as [sy|sy| |sy my ey]; simpl;
    try discriminate;
    try (intros [= <-]; try destruct sx; try destruct sy; reflexivity).
  intros [= <-]. f_equal.
  rewrite (Z.compare_antisym ex ey).
  replace (Pos.compare_cont Eq my mx)
    with (CompOpp (Pos.compare_cont Eq mx my))
    by apply (Pos.compare_cont_antisym mx my Eq).
  destruct sx, sy; try reflexivity;
    destruct (ex ?= ey)%Z; simpl; try reflexivity;
    destruct (Pos.compare_cont Eq mx my); reflexivity.
Qed.

Lemma SFltb_asym (x y : float32) : SFltb x y = true → SFltb y x = false.
Proof.
  unfold SFltb. destruct (SFcompare x y) as [[]|] eqn:E; try discriminate.
  intros _. rewrite (SFcompare_antisym _ _ _ E). reflexivity.
Qed.

Lemma float32_constants_valid :
  is_float32 float32_zero = true
  ∧ is_float32 float32_one = true
  ∧ is_float32 Sample.half = true.
Proof. by vm_compute. Qed.

Lemma float32_ne_zero_zero (s : bool) :
  float32_ne (S754_zero s) float32_zero = false.
Proof. reflexivity. Qed.

Lemma float32_draw_not_above_one (d : float32) :
  in_unit_interval d → float32_gt d float32_one = false.
Proof. intros [_ H]. unfold float32_gt. by apply SFltb_asym. Qed.

Section Pipeline.

Variable VERSION : string.
Variables (env : Env) (client : Client) (event : Event).
Variables (hint : option EventHint) (scope : EventModifier).

(** *** Preparation *)

(** What [prepareEvent] hands to the scope, field by field. *)
Lemma prepareEvent_shape :
  ∃ prepared,
    prepareEvent VERSION env client event hint scope
      = (ApplyToEvent scope prepared hint, [Scope_ApplyToEvent prepared hint])
    ∧ EventID prepared
        = (if String.eqb (EventID event) "" then uuid env else EventID event)
    ∧ Timestamp prepared
        = (if Z.eqb (Timestamp event) 0 then time_Now_Unix env
           else Timestamp event)
    ∧ Level prepared
        = (if String.eqb (Level event) "" then LevelInfo else Level event)
    ∧ ServerName prepared
        = (if String.eqb (ServerName event) "" then
             match os_Hostname env with
             | (hostname, None) => hostname
             | (_, Some _) => ""
             end
           else ServerName event)
    ∧ Message prepared = Message event
    ∧ Sdk prepared
        = {| SdkInfo_Name := "sentry.go";
             SdkInfo_Version := VERSION;
             SdkInfo_Integrations := listIntegrations client;
             SdkInfo_Packages :=
               [ {| SdkPackage_Name := "sentry-go";
                    SdkPackage_Version := VERSION |} ] |}
    ∧ Platform prepared = "go"
    ∧ Transaction prepared = "Don't sneak into my computer please".
Proof.
  eexists. split; [reflexivity|]. cbn.
  destruct (String.eqb (EventID event) ""); cbn;
    destruct (Z.eqb (Timestamp event) 0); cbn;
    destruct (String.eqb (Level event) ""); cbn;
    destruct (String.eqb (ServerName event) "") eqn:Hs; cbn;
    try destruct (os_Hostname env) as [hostname [err|]];
    cbn; repeat split; try reflexivity;
    by apply String.eqb_eq.
Qed.

(** *** The pipeline, stage by stage *)

Lemma processEvent_trace :
  ∃ prepared,
    trace (prepareEvent VERSION env client event hint scope)
      = [Scope_ApplyToEvent prepared hint]
    ∧ trace (processEvent VERSION env client event hint scope)
      = if float32_ne (SampleRate (Options client)) float32_zero then
          rand_draw (time_Now_UnixNano env) ::
          if float32_gt (rand_Float32 env (time_Now_UnixNano env))
               (SampleRate (Options client))
          then []
          else Scope_ApplyToEvent prepared hint
               :: calls_after_scope client hint scope prepared
        else Scope_ApplyToEvent prepared hint
             :: calls_after_scope client hint scope prepared.
Proof.
  destruct prepareEvent_shape as (prepared & Hp & _).
  exists prepared. split; [by rewrite Hp|].
  unfold processEvent, calls_after_scope, filter_hint. rewrite Hp.
  destruct (float32_ne _ _); cbn;
    [destruct (float32_gt _ _); cbn; [reflexivity|] |];
    (destruct (ApplyToEvent scope prepared hint) as [e1|]; cbn;
     [|reflexivity];
     destruct (BeforeSend (Options client)) as [f|]; cbn; [|reflexivity];
     destruct (f e1 _); reflexivity).
Qed.

Lemma CaptureEvent_trace :
  ∃ log,
    trace (CaptureEvent VERSION env client event hint scope)
      = trace (processEvent VERSION env client event hint scope) ++ log
    ∧ ∀ c, c ∈ log → ∃ msg, c = debugger_Println msg.
Proof.
  unfold CaptureEvent. rewrite trace_bind.
  destruct (snd (result _)) as [err|]; eexists; (split; [reflexivity|]).
  - intros c ->%list_elem_of_singleton. eauto.
  - intros c []%elem_of_nil.
Qed.

Lemma calls_after_scope_cases (prepared : Event) :
  (ApplyToEvent scope prepared hint = None
   ∧ calls_after_scope client hint scope prepared = [])
  ∨ (∃ e1, ApplyToEvent scope prepared hint = Some e1
      ∧ BeforeSend (Options client) = None
      ∧ calls_after_scope client hint scope prepared
        = [Transport_SendEvent e1])
  ∨ (∃ e1 f, ApplyToEvent scope prepared hint = Some e1
      ∧ BeforeSend (Options client) = Some f
      ∧ f e1 (filter_hint hint) = None
      ∧ calls_after_scope client hint scope prepared
        = [Options_BeforeSend e1 (filter_hint hint)])
  ∨ (∃ e1 f e2, ApplyToEvent scope prepared hint = Some e1
      ∧ BeforeSend (Options client) = Some f
      ∧ f e1 (filter_hint hint) = Some e2
      ∧ calls_after_scope client hint scope prepared
        = [Options_BeforeSend e1 (filter_hint hint); Transport_SendEvent e2]).
Proof.
  unfold calls_after_scope.
  destruct (ApplyToEvent scope prepared hint) as [e1|]; [|by left].
  destruct (BeforeSend (Options client)) as [f|]; [|right; left; eauto].
  destruct (f e1 (filter_hint hint)) as [e2|] eqn:Hf.
  - do 3 right. by exists e1, f, e2.
  - right; right; left. by exists e1, f.
Qed.

(** Case split on what followed the scope call; [Hcs] names the equation
    for [calls_after_scope]. *)
Ltac after_scope_cases prepared Hcs :=
  destruct (calls_after_scope_cases prepared)
    as [(? & Hcs)
       |[(? & ? & ? & Hcs)
        |[(? & ? & ? & ? & ? & Hcs)
         |(? & ? & ? & ? & ? & ? & Hcs)]]].

(** How far [processEvent] gets: dropped by sampling after the draw, or
    on to the scope, with or without a draw before. *)
Lemma processEvent_stages :
  ∃ prepared,
    trace (prepareEvent VERSION env client event hint scope)
      = [Scope_ApplyToEvent prepared hint]
    ∧ (trace (processEvent VERSION env client event hint scope)
         = [rand_draw (time_Now_UnixNano env)]
       ∨ trace (processEvent VERSION env client event hint scope)
         = rand_draw (time_Now_UnixNano env)
           :: Scope_ApplyToEvent prepared hint
           :: calls_after_scope client hint scope prepared
       ∨ trace (processEvent VERSION env client event hint scope)
         = Scope_ApplyToEvent prepared hint
           :: calls_after_scope client hint scope prepared).
Proof.
  destruct processEvent_trace as (prepared & Hp & ->).
  exists prepared. split; [exact Hp|].
  destruct (float32_ne _ _); [destruct (float32_gt _ _)|]; auto.
Qed.

(** *** Sampling *)

(** C1. With a sampling rate of exactly 0.0 (of either sign) the random
    generator is not even consulted, and the first thing [processEvent]
    does is prepare the event and hand it to the scope: sampling drops
    nothing. *)
Theorem processEvent_zero_rate_bypasses_sampling (s : bool) :
  SampleRate (Options client) = S754_zero s →
  (∀ seed, rand_draw seed ∉
             trace (processEvent VERSION env client event hint scope))
  ∧ ∃ prepared rest,
      trace (prepareEvent VERSION env client event hint scope)
        = [Scope_ApplyToEvent prepared hint]
      ∧ trace (processEvent VERSION env client event hint scope)
        = Scope_ApplyToEvent prepared hint :: rest.
Proof.
  intros Hrate.
  destruct processEvent_trace as (prepared & Hp & Ht).
  rewrite Hrate, float32_ne_zero_zero in Ht. split.
  - intros seed. rewrite Ht.
    after_scope_cases prepared Hcs; rewrite Hcs; set_solver.
  - eauto.
Qed.

(** C9. With a sampling rate of exactly 1.0, whatever number in [[0,1)]
    the generator draws, the draw is followed by the preparation of the
    event: sampling drops nothing. *)
Theorem processEvent_rate_one_never_drops :
  SampleRate (Options client) = float32_one →
  in_unit_interval (rand_Float32 env (time_Now_UnixNano env)) →
  ∃ prepared rest,
    trace (prepareEvent VERSION env client event hint scope)
      = [Scope_ApplyToEvent prepared hint]
    ∧ trace (processEvent VERSION env client event hint scope)
      = rand_draw (time_Now_UnixNano env)
        :: Scope_ApplyToEvent prepared hint :: rest.
Proof.
  intros Hrate Hdraw.
  destruct processEvent_trace as (prepared & Hp & Ht).
  rewrite Hrate in Ht.
  rewrite (float32_draw_not_above_one _ Hdraw) in Ht.
  change (float32_ne float32_one float32_zero) with true in Ht.
  cbv iota in Ht. eauto.
Qed.

(** *** Defaults and overwrites *)


(** C6. In the event [prepareEvent] hands to the scope, the SDK metadata,
    the platform tag and the transaction label are the client's, whatever
    the event held before; identifier, timestamp, level and server name
    are the caller's unless unset, in which case they are the defaults;
    the message is untouched. *)
Theorem prepareEvent_overwrites_and_defaults :
  ∃ prepared,
    trace (prepareEvent VERSION env client event hint scope)
      = [Scope_ApplyToEvent prepared hint]
    ∧ result (prepareEvent VERSION env client event hint scope)
      = ApplyToEvent scope prepared hint
    ∧ Sdk prepared
        = {| SdkInfo_Name := "sentry.go";
             SdkInfo_Version := VERSION;
             SdkInfo_Integrations := listIntegrations client;
             SdkInfo_Packages :=
               [ {| SdkPackage_Name := "sentry-go";
                    SdkPackage_Version := VERSION |} ] |}
    ∧ Platform prepared = "go"
    ∧ Transaction prepared = "Don't sneak into my computer please"
    ∧ EventID prepared
        = (if String.eqb (EventID event) "" then uuid env else EventID event)
    ∧ Timestamp prepared
        = (if Z.eqb (Timestamp event) 0 then time_Now_Unix env
           else Timestamp event)
    ∧ Level prepared
        = (if String.eqb (Level event) "" then LevelInfo else Level event)
    ∧ ServerName prepared
        = (if String.eqb (ServerName event) "" then
             match os_Hostname env with
             | (hostname, None) => hostname
             | (_, Some _) => ""
             end
           else ServerName event)
    ∧ Message prepared = Message event.
Proof.
  destruct prepareEvent_shape
    as (prepared & Hp & Hid & Hts & Hlv & Hsn & Hmsg & Hsdk & Hpl & Htx).
  exists prepared. rewrite Hp. by repeat split.
Qed.

(** *** Short-circuiting *)

(** C3. In a capture call ([CaptureMessage] and [CaptureException] are
    [CaptureEvent] on the event they build): if the scope's [ApplyToEvent]
    returned no event, neither the user filter nor the transport's
    [SendEvent] is called; and if the configured user filter returned no
    event, the transport's [SendEvent] is not called. *)
Theorem capture_short_circuits :
  let run := trace (CaptureEvent VERSION env client event hint scope) in
  ((∀ e h, Scope_ApplyToEvent e h ∈ run → ApplyToEvent scope e h = None) →
   (∀ e h, Options_BeforeSend e h ∉ run) ∧ (∀ e, Transport_SendEvent e ∉ run))
  ∧ (∀ f, BeforeSend (Options client) = Some f →
      (∀ e h, Options_BeforeSend e h ∈ run → f e h = None) →
      ∀ e, Transport_SendEvent e ∉ run).
Proof.
  intros run. subst run.
  destruct CaptureEvent_trace as (log & -> & Hlog).
  assert (∀ e h, Scope_ApplyToEvent e h ∉ log) as Hlog1
    by (intros e h (? & [=])%Hlog).
  assert (∀ e h, Options_BeforeSend e h ∉ log) as Hlog2
    by (intros e h (? & [=])%Hlog).
  assert (∀ e, Transport_SendEvent e ∉ log) as Hlog3
    by (intros e (? & [=])%Hlog).
  destruct processEvent_stages as (prepared & _ & Ht).
  split.
  - intros Hveto.
    destruct Ht as [->|[Ht| Ht]]; [set_solver| |];
      rewrite Ht in *;
      (assert (ApplyToEvent scope prepared hint = None) as Hnone
         by (apply Hveto; set_solver));
      after_scope_cases prepared Hcs;
      try congruence; rewrite Hcs; set_solver.
  - intros f Hf Hveto.
    destruct Ht as [->|[Ht| Ht]]; [set_solver| |];
      rewrite Ht in *;
      after_scope_cases prepared Hcs;
      try congruence; rewrite Hcs in *; try set_solver;
      match goal with
      | Hsome : ?f' ?e1 (filter_hint hint) = Some _ |- _ =>
          assert (f e1 (filter_hint hint) = None) as Hnone
            by (apply Hveto; set_solver);
          congruence
      end.
Qed.

(** C10. Whenever [processEvent] calls the configured [BeforeSend], the
    hint it passes is not [nil]: it is the capture call's hint, or a fresh
    empty [EventHint] when the capture call gave none. *)
Theorem BeforeSend_hint_never_nil (e : Event) (h : option EventHint) :
  Options_BeforeSend e h
    ∈ trace (processEvent VERSION env client event hint scope) →
  h ≠ None
  ∧ h = Some (match hint with Some x => x | None => EventHint_empty end).
Proof.
  destruct processEvent_stages as (prepared & _ & Ht).
  intros Hin.
  assert (Options_BeforeSend e h
            ∈ calls_after_scope client hint scope prepared) as Hc
    by (destruct Ht as [Ht|[Ht|Ht]]; rewrite Ht in Hin; set_solver).
  assert (h = filter_hint hint) as ->.
  { after_scope_cases prepared Hcs; rewrite Hcs in Hc; set_solver. }
  by split.
Qed.

End Pipeline.

(** *** Construction *)

Section Construction.

Variable HTTPTransport : Transport.
Variable parseDsn : string → DsnT + error.

Lemma Dsn_after_fallbacks (env : Env) (opts : ClientOptions) :
  Dsn (options_after_fallbacks env opts)
  = (if String.eqb (Dsn opts) "" then os_Getenv env "SENTRY_DSN"
     else Dsn opts)
  ∧ Integrations (options_after_fallbacks env opts) = Integrations opts
  ∧ Options_Transport (options_after_fallbacks env opts)
    = Options_Transport opts.
Proof.
  unfold options_after_fallbacks. cbv zeta.
  destruct (String.eqb (Dsn opts) ""); cbn;
    destruct (String.eqb (Release opts) ""); cbn;
    destruct (String.eqb (Environment opts) ""); cbn; done.
Qed.

(** [NewClient], outcome by outcome. *)
Lemma NewClient_unfold (env : Env) (opts : ClientOptions) :
  let opts' := options_after_fallbacks env opts in
  let transport := default HTTPTransport (Options_Transport opts') in
  NewClient HTTPTransport parseDsn env opts
  = match NewDsn parseDsn (Dsn opts') with
    | (_, Some err) => ((None, Some err), debug_setup opts)
    | (d, None) =>
        let registry :=
          setupIntegrations_loop (default [] (Integrations opts')) ∅ in
        ((Some {| options := opts'; dsn := d;
                  integrations :=
                    match Integrations opts' with
                    | Some _ => Some (result registry)
                    | None => None
                    end;
                  Client_Transport := transport |}, None),
         debug_setup opts
         ++ match d with None => [empty_Dsn_notice] | Some _ => [] end
         ++ Transport_Configure transport opts'
         :: match Integrations opts' with
            | Some _ => trace registry
            | None => []
            end)
    end.
Proof.
  intros opts' transport. subst transport.
  unfold NewClient, debug_setup.
  change (if String.eqb (Environment _) "" then _ else _)
    with (options_after_fallbacks env opts).
  fold opts'. clearbody opts'.
  destruct (NewDsn parseDsn (Dsn opts')) as [d [err|]].
  - destruct (Debug opts); [destruct (DebugWriter opts)|]; reflexivity.
  - unfold setupTransport, setupIntegrations. cbn.
    destruct (Options_Transport opts') as [t|]; cbn;
      (destruct (Integrations opts') as [l|]; cbn;
       [destruct (setupIntegrations_loop l ∅) as [m tr]|]);
      destruct d; destruct (Debug opts);
      try destruct (DebugWriter opts); cbn;
      rewrite ?app_nil_r; reflexivity.
Qed.

(** C5. [NewClient] returns an error, and no client, exactly when the
    endpoint descriptor (the configured one, or [SENTRY_DSN] when none is
    configured) fails to parse; otherwise it returns a client and no
    error. An empty descriptor is no failure: the notice goes to the debug
    logger and the client returned has its transport configured. *)
Theorem NewClient_fails_iff_descriptor_fails (env : Env)
    (opts : ClientOptions) :
  let descriptor :=
    if String.eqb (Dsn opts) "" then os_Getenv env "SENTRY_DSN"
    else Dsn opts in
  let run := NewClient HTTPTransport parseDsn env opts in
  (∀ err, result run = (None, Some err)
          ↔ snd (NewDsn parseDsn descriptor) = Some err)
  ∧ (snd (NewDsn parseDsn descriptor) = None
     ↔ ∃ client, result run = (Some client, None))
  ∧ (descriptor = "" →
     ∃ client,
       result run = (Some client, None)
       ∧ dsn client = None
       ∧ empty_Dsn_notice ∈ trace run
       ∧ Transport_Configure (Client_Transport client) (options client)
           ∈ trace run
       ∧ Client_Transport client
         = default HTTPTransport (Options_Transport opts)).
Proof.
  intros descriptor run. subst run.
  pose proof (NewClient_unfold env opts) as Hrun. cbv zeta in Hrun.
  destruct (Dsn_after_fallbacks env opts) as (Hdsn & _ & Htr).
  rewrite Hdsn, Htr in Hrun. fold descriptor in Hrun. rewrite Hrun.
  split; [|split].
  - intros err.
    destruct (NewDsn parseDsn descriptor) as [d [err'|]]; cbn;
      split; congruence.
  - destruct (NewDsn parseDsn descriptor) as [d [err'|]]; cbn; split;
      try done; eauto.
    intros (? & [=]).
  - intros Hempty. unfold NewDsn. rewrite Hempty. cbn.
    eexists. split; [reflexivity|]. cbn.
    repeat split; set_solver.
Qed.

(** The descriptor [NewClient] parses is the configured one unless that is
    empty: then it is [SENTRY_DSN], and construction stands or falls with
    it. *)
Lemma NewClient_empty_Dsn_reads_environment (env : Env)
    (opts : ClientOptions) (err : error) :
  Dsn opts = "" →
  snd (NewDsn parseDsn (os_Getenv env "SENTRY_DSN")) = Some err →
  result (NewClient HTTPTransport parseDsn env opts) = (None, Some err).
Proof.
  intros Hdsn Herr. rewrite NewClient_unfold. cbv zeta.
  destruct (Dsn_after_fallbacks env opts) as (-> & _ & _).
  rewrite Hdsn. cbn [String.eqb].
  destruct (NewDsn parseDsn _) as [d [err'|]]; cbn in Herr; [|done].
  by injection Herr as ->.
Qed.

(** *** The integration registry *)

Lemma setupIntegrations_loop_cons (i : Integration) (rest : list Integration)
    (m : gmap string Integration) :
  result (setupIntegrations_loop (i :: rest) m)
  = result (setupIntegrations_loop rest (<[Name i := i]> m))
  ∧ trace (setupIntegrations_loop (i :: rest) m)
    = Integration_SetupOnce i
      :: debugger_Printf "Integration installed: %s\n" (Name i)
      :: trace (setupIntegrations_loop rest (<[Name i := i]> m)).
Proof.
  cbn. destruct (setupIntegrations_loop rest _). by split.
Qed.

(** The hooks run once per registration, in input order. *)
Lemma setupIntegrations_loop_setups (l : list Integration)
    (m : gmap string Integration) :
  setup_calls (trace (setupIntegrations_loop l m)) = l.
Proof.
  revert m. induction l as [|i rest IH]; intros m; [reflexivity|].
  destruct (setupIntegrations_loop_cons i rest m) as [_ ->].
  cbn. by rewrite IH.
Qed.

(** The entry under a name is the last registration under that name. *)
Lemma setupIntegrations_loop_lookup (l : list Integration)
    (m : gmap string Integration) (n : string) :
  result (setupIntegrations_loop l m) !! n
  = match last (filter (λ i, Name i = n) l) with
    | Some i => Some i
    | None => m !! n
    end.
Proof.
  revert m. induction l as [|i rest IH]; intros m; [reflexivity|].
  destruct (setupIntegrations_loop_cons i rest m) as [-> _].
  rewrite IH, filter_cons. case_decide as Hn.
  - subst n. rewrite last_cons, lookup_insert_eq.
    destruct (last (filter _ rest)); reflexivity.
  - by rewrite lookup_insert_ne.
Qed.

Lemma setupIntegrations_loop_dom (l : list Integration)
    (m : gmap string Integration) :
  dom (result (setupIntegrations_loop l m))
  = list_to_set (Name <$> l) ∪ dom m.
Proof.
  revert m. induction l as [|i rest IH]; intros m; [set_solver|].
  destruct (setupIntegrations_loop_cons i rest m) as [-> _].
  rewrite IH, dom_insert_L. set_solver.
Qed.

(** *** Listing *)

Lemma range_keys_NoDup (o : option (gmap string Integration)) :
  NoDup (range_keys o).
Proof. destruct o; [apply NoDup_fst_map_to_list|constructor]. Qed.

Lemma elem_of_range_keys (m : gmap string Integration) (n : string) :
  n ∈ range_keys (Some m) ↔ n ∈ dom m.
Proof.
  unfold range_keys. rewrite elem_of_dom, list_elem_of_fmap. split.
  - intros ([k i] & -> & Hi%elem_of_map_to_list). by exists i.
  - intros [i Hi]. exists (n, i). by rewrite elem_of_map_to_list.
Qed.

Lemma sort_Strings_Sorted (l : list string) :
  Sorted String.le (sort_Strings l).
Proof. apply (Sorted_merge_sort String.le). Qed.

Lemma sort_Strings_Permutation (l : list string) : sort_Strings l ≡ₚ l.
Proof. apply (merge_sort_Permutation String.le). Qed.

(** Sorting forgets the order the keys came in. *)
Lemma sort_Strings_unique (l1 l2 : list string) :
  l1 ≡ₚ l2 → sort_Strings l1 = sort_Strings l2.
Proof.
  intros Hperm. apply (Sorted_unique String.le).
  - apply sort_Strings_Sorted.
  - apply sort_Strings_Sorted.
  - by rewrite !sort_Strings_Permutation.
Qed.

(** Any sorted rearrangement of [l] is [sort_Strings l]: which sorting
    algorithm stands behind [sort.Strings] does not matter. *)
Lemma sort_Strings_characterised (l sorted : list string) :
  Sorted String.le sorted → sorted ≡ₚ l → sorted = sort_Strings l.
Proof.
  intros Hsorted Hperm. apply (Sorted_unique String.le).
  - exact Hsorted.
  - apply sort_Strings_Sorted.
  - by rewrite sort_Strings_Permutation.
Qed.

Lemma listIntegrations_NoDup (c : Client) : NoDup (listIntegrations c).
Proof.
  unfold listIntegrations.
  rewrite sort_Strings_Permutation. apply range_keys_NoDup.
Qed.

Lemma elem_of_listIntegrations (c : Client) (n : string) :
  n ∈ listIntegrations c ↔ n ∈ range_keys (integrations c).
Proof. unfold listIntegrations. by rewrite sort_Strings_Permutation. Qed.

Lemma filter_eq_not_elem_of (l : list string) (x : string) :
  x ∉ l → filter (λ n, n = x) l = [].
Proof.
  induction l as [|y l IH]; [done|].
  intros [Hy Hl]%not_elem_of_cons.
  rewrite filter_cons, decide_False by done. auto.
Qed.

Lemma filter_eq_NoDup (l : list string) (x : string) :
  NoDup l → x ∈ l → filter (λ n, n = x) l = [x].
Proof.
  induction 1 as [|y l Hy Hl IH]; [by intros ?%elem_of_nil|].
  rewrite filter_cons. intros [->|Hx]%elem_of_cons.
  - rewrite decide_True by done. f_equal.
    by apply filter_eq_not_elem_of.
  - rewrite decide_False by (by intros ->). auto.
Qed.

(** What [NewClient] leaves in the registry and in the trace. *)
Lemma NewClient_registry (env : Env) (opts : ClientOptions) (c : Client) :
  result (NewClient HTTPTransport parseDsn env opts) = (Some c, None) →
  integrations c
  = (λ l, result (setupIntegrations_loop l ∅)) <$> Integrations opts
  ∧ setup_calls (trace (NewClient HTTPTransport parseDsn env opts))
    = default [] (Integrations opts).
Proof.
  rewrite NewClient_unfold. cbv zeta.
  destruct (Dsn_after_fallbacks env opts) as (_ & -> & _).
  destruct (NewDsn _ _) as [d [err|]]; [by intros [=]|].
  intros [= <-]. cbn [integrations trace snd].
  unfold setup_calls, debug_setup. rewrite !omap_app.
  destruct (Integrations opts) as [l|]; cbn.
  - rewrite (setupIntegrations_loop_setups l ∅).
    by destruct (Debug opts), d.
  - by destruct (Debug opts), d.
Qed.

(** The listing of a client [NewClient] built: the names of the configured
    integrations. *)
Lemma NewClient_listing (env : Env) (opts : ClientOptions) (c : Client) :
  result (NewClient HTTPTransport parseDsn env opts) = (Some c, None) →
  ∀ n, n ∈ listIntegrations c ↔ n ∈ Name <$> default [] (Integrations opts).
Proof.
  intros Hc n.
  destruct (NewClient_registry env opts c Hc) as [Hreg _].
  rewrite elem_of_listIntegrations, Hreg.
  destruct (Integrations opts) as [l|]; cbn [fmap option_fmap option_map default].
  - rewrite elem_of_range_keys, setupIntegrations_loop_dom. set_solver.
  - done.
Qed.

(** C7. For clients built by [NewClient]: the listing is sorted for the
    byte-wise lexicographic order, holds exactly the registered names, each
    once, is the same whatever order the map is walked in, and is the same
    for any two registrations of the same set of names, in whatever order
    they were given. *)
Theorem listIntegrations_sorted_deterministic (env env' : Env)
    (opts opts' : ClientOptions) (c c' : Client) :
  (∀ n, n ∈ Name <$> default [] (Integrations opts)
        ↔ n ∈ Name <$> default [] (Integrations opts')) →
  result (NewClient HTTPTransport parseDsn env opts) = (Some c, None) →
  result (NewClient HTTPTransport parseDsn env' opts') = (Some c', None) →
  Sorted String.le (listIntegrations c)
  ∧ NoDup (listIntegrations c)
  ∧ (∀ n, n ∈ listIntegrations c
          ↔ n ∈ Name <$> default [] (Integrations opts))
  ∧ (∀ keys, keys ≡ₚ range_keys (integrations c) →
             sort_Strings keys = listIntegrations c)
  ∧ listIntegrations c' = listIntegrations c.
Proof.
  intros Hnames Hc Hc'.
  split; [apply sort_Strings_Sorted|].
  split; [apply listIntegrations_NoDup|].
  split; [by apply (NewClient_listing env opts)|].
  split; [intros keys; apply sort_Strings_unique|].
  apply sort_Strings_unique, NoDup_Permutation;
    [apply range_keys_NoDup..|].
  intros n. rewrite <- !elem_of_listIntegrations.
  rewrite (NewClient_listing env opts c Hc).
  rewrite (NewClient_listing env' opts' c' Hc').
  by rewrite Hnames.
Qed.

(** C8. When an integration [i1] and, later, an integration [i2] of the
    same name are registered (and none of that name after [i2]), the
    registry holds [i2] under the name, the listing has the name once, and
    the setup hook ran once for every registration, [i1] and [i2]
    included, in input order. *)
Theorem duplicate_name_last_registration_wins (env : Env)
    (opts : ClientOptions) (c : Client)
    (pre mid post : list Integration) (i1 i2 : Integration) :
  Integrations opts = Some (pre ++ i1 :: mid ++ i2 :: post) →
  Name i1 = Name i2 →
  (∀ j, j ∈ post → Name j ≠ Name i2) →
  result (NewClient HTTPTransport parseDsn env opts) = (Some c, None) →
  (∃ m, integrations c = Some m ∧ m !! Name i2 = Some i2)
  ∧ filter (λ n, n = Name i2) (listIntegrations c) = [Name i2]
  ∧ setup_calls (trace (NewClient HTTPTransport parseDsn env opts))
    = pre ++ i1 :: mid ++ i2 :: post.
Proof.
  intros Hl Hname Hpost Hc.
  destruct (NewClient_registry env opts c Hc) as [Hreg Hsetup].
  rewrite Hl in Hreg, Hsetup.
  split; [|split; [|exact Hsetup]].
  - eexists. split; [exact Hreg|].
    rewrite setupIntegrations_loop_lookup.
    replace (pre ++ i1 :: mid ++ i2 :: post)
      with ((pre ++ i1 :: mid) ++ i2 :: post)
      by (by rewrite <- app_assoc).
    rewrite filter_app.
    rewrite (filter_cons_True (λ i, Name i = Name i2) i2 post) by done.
    assert (filter (λ i, Name i = Name i2) post = []) as ->.
    { clear -Hpost. induction post as [|j post' IH]; [done|].
      rewrite filter_cons, decide_False by (apply Hpost; left).
      apply IH. intros j' Hj'. apply Hpost. by right. }
    by rewrite last_snoc.
  - apply filter_eq_NoDup; [apply listIntegrations_NoDup|].
    apply (NewClient_listing env opts c Hc). rewrite Hl.
    apply list_elem_of_fmap. exists i2. split; [done|].
    set_solver.
Qed.

End Construction.

(** *** Recovery *)

(** C4. Both recovery helpers: the recovered value is the argument, or what
    [recover()] returns when the argument is [nil]. A value whose dynamic
    type is an error gives exactly one capture-by-error call, a string
    exactly one capture-by-message call, and anything else (or nothing
    recovered) no call at all. The context-free helper goes through the
    package-level capture functions, the other through the hub of the
    context, or the current hub when the context has none. *)
Theorem Recover_dispatch (env : Env) (client : Client) (ctx : Ctx)
    (recoveredErr : iface) (scope : option Scope) :
  let recovered := if is_nil recoveredErr then recover env else recoveredErr in
  let hub :=
    if HasHubOnContext ctx then GetHubFromContext ctx
    else Some (CurrentHub env) in
  let hint := Some {| Context := Some ctx |} in
  trace (Recover env client recoveredErr scope)
  = match recovered with
    | IError err => [sentry_CaptureException err]
    | IString msg => [sentry_CaptureMessage msg]
    | IOther _ _ | INil => []
    end
  ∧ trace (RecoverWithContext env client ctx recoveredErr scope)
  = match recovered with
    | IError err => [Hub_CaptureException hub err hint]
    | IString msg => [Hub_CaptureMessage hub msg hint]
    | IOther _ _ | INil => []
    end.
Proof.
  unfold Recover, RecoverWithContext. cbv zeta.
  destruct (if is_nil recoveredErr then recover env else recoveredErr);
    by split.
Qed.

(* ================================================================== *)
(** ** The theorems at work on concrete runs *)
(* ================================================================== *)

Lemma processEvent_zero_rate_bypasses_sampling_witness :
  SampleRate (Options Sample.client_keep) = S754_zero false
  ∧ (∀ seed, rand_draw seed ∉
       trace (processEvent Sample.VERSION Sample.env Sample.client_keep
                Sample.event None Sample.scope_id))
  ∧ ∃ prepared rest,
      trace (prepareEvent Sample.VERSION Sample.env Sample.client_keep
               Sample.event None Sample.scope_id)
        = [Scope_ApplyToEvent prepared None]
      ∧ trace (processEvent Sample.VERSION Sample.env Sample.client_keep
                 Sample.event None Sample.scope_id)
        = Scope_ApplyToEvent prepared None :: rest.
Proof.
  split; [reflexivity|].
  apply (processEvent_zero_rate_bypasses_sampling Sample.VERSION Sample.env
           Sample.client_keep Sample.event None Sample.scope_id false).
  reflexivity.
Defined.

Lemma processEvent_rate_one_never_drops_witness :
  SampleRate (Options Sample.client_one) = float32_one
  ∧ in_unit_interval
      (rand_Float32 Sample.env (time_Now_UnixNano Sample.env))
  ∧ ∃ prepared rest,
      trace (prepareEvent Sample.VERSION Sample.env Sample.client_one
               Sample.event None Sample.scope_id)
        = [Scope_ApplyToEvent prepared None]
      ∧ trace (processEvent Sample.VERSION Sample.env Sample.client_one
                 Sample.event None Sample.scope_id)
        = rand_draw (time_Now_UnixNano Sample.env)
          :: Scope_ApplyToEvent prepared None :: rest.
Proof.
  assert (in_unit_interval
            (rand_Float32 Sample.env (time_Now_UnixNano Sample.env))) as Hdraw
    by (split; reflexivity).
  split; [reflexivity|]. split; [exact Hdraw|].
  apply (processEvent_rate_one_never_drops Sample.VERSION Sample.env
           Sample.client_one Sample.event None Sample.scope_id);
    [reflexivity|exact Hdraw].
Defined.


Lemma capture_short_circuits_witness :
  (Scope_ApplyToEvent Sample.prepared None
     ∈ trace (CaptureEvent Sample.VERSION Sample.env Sample.client_keep
                Sample.event None Sample.scope_veto)
   ∧ (∀ e h, Options_BeforeSend e h
        ∉ trace (CaptureEvent Sample.VERSION Sample.env Sample.client_keep
                   Sample.event None Sample.scope_veto))
   ∧ (∀ e, Transport_SendEvent e
        ∉ trace (CaptureEvent Sample.VERSION Sample.env Sample.client_keep
                   Sample.event None Sample.scope_veto)))
  ∧ (Options_BeforeSend Sample.prepared (Some EventHint_empty)
       ∈ trace (CaptureEvent Sample.VERSION Sample.env Sample.client_reject
                  Sample.event None Sample.scope_id)
     ∧ ∀ e, Transport_SendEvent e
         ∉ trace (CaptureEvent Sample.VERSION Sample.env Sample.client_reject
                    Sample.event None Sample.scope_id)).
Proof.
  split.
  - split; [vm_compute; apply list_elem_of_here|].
    apply (capture_short_circuits Sample.VERSION Sample.env
             Sample.client_keep Sample.event None Sample.scope_veto).
    reflexivity.
  - split; [vm_compute; apply list_elem_of_further, list_elem_of_here|].
    apply (capture_short_circuits Sample.VERSION Sample.env
             Sample.client_reject Sample.event None Sample.scope_id)
      with (f := Sample.reject); reflexivity.
Defined.

Lemma BeforeSend_hint_never_nil_witness :
  Options_BeforeSend Sample.prepared (Some EventHint_empty)
    ∈ trace (processEvent Sample.VERSION Sample.env Sample.client_keep
               Sample.event None Sample.scope_id)
  ∧ Some EventHint_empty ≠ None
  ∧ Some EventHint_empty = Some EventHint_empty.
Proof.
  assert (Options_BeforeSend Sample.prepared (Some EventHint_empty)
            ∈ trace (processEvent Sample.VERSION Sample.env
                       Sample.client_keep Sample.event None Sample.scope_id))
    as Hin by (vm_compute; apply list_elem_of_further, list_elem_of_here).
  split; [exact Hin|].
  apply (BeforeSend_hint_never_nil Sample.VERSION Sample.env
           Sample.client_keep Sample.event None Sample.scope_id
           Sample.prepared (Some EventHint_empty) Hin).
Defined.

Lemma NewClient_fails_iff_descriptor_fails_witness :
  result (NewClient Sample.transport Sample.parseDsn Sample.env
            (Sample.with_Dsn "ftp://example.org/1"))
  = (None, Some (Errorf "invalid scheme"))
  ∧ ∃ client,
      result (NewClient Sample.transport Sample.parseDsn Sample.env
                (Sample.with_Dsn ""))
      = (Some client, None)
      ∧ dsn client = None
      ∧ empty_Dsn_notice
          ∈ trace (NewClient Sample.transport Sample.parseDsn Sample.env
                     (Sample.with_Dsn ""))
      ∧ Transport_Configure (Client_Transport client) (options client)
          ∈ trace (NewClient Sample.transport Sample.parseDsn Sample.env
                     (Sample.with_Dsn ""))
      ∧ Client_Transport client = Sample.transport.
Proof.
  split.
  - apply (NewClient_fails_iff_descriptor_fails Sample.transport
             Sample.parseDsn Sample.env (Sample.with_Dsn "ftp://example.org/1")).
    reflexivity.
  - apply (NewClient_fails_iff_descriptor_fails Sample.transport
             Sample.parseDsn Sample.env (Sample.with_Dsn "")).
    reflexivity.
Defined.

(** The listing for integrations registered as "b", "a", "c". *)
Example listIntegrations_b_a_c :
  listIntegrations
    <$> fst (result (NewClient Sample.transport Sample.parseDsn Sample.env
                       (Sample.with_Integrations
                          [Sample.int_b; Sample.int_a; Sample.int_c])))
  = Some ["a"; "b"; "c"].
Proof. vm_compute. reflexivity. Qed.

Lemma listIntegrations_sorted_deterministic_witness :
  ∃ c c',
    result (NewClient Sample.transport Sample.parseDsn Sample.env
              (Sample.with_Integrations
                 [Sample.int_b; Sample.int_a; Sample.int_c]))
    = (Some c, None)
    ∧ result (NewClient Sample.transport Sample.parseDsn Sample.env
                (Sample.with_Integrations
                   [Sample.int_c; Sample.int_b; Sample.int_a']))
      = (Some c', None)
    ∧ Sorted String.le (listIntegrations c)
    ∧ NoDup (listIntegrations c)
    ∧ (∀ n, n ∈ listIntegrations c
            ↔ n ∈ Name <$> default []
                  (Integrations
                     (Sample.with_Integrations
                        [Sample.int_b; Sample.int_a; Sample.int_c])))
    ∧ (∀ keys, keys ≡ₚ range_keys (integrations c) →
               sort_Strings keys = listIntegrations c)
    ∧ listIntegrations c' = listIntegrations c.
Proof.
  eexists _, _.
  split; [vm_compute; reflexivity|]. split; [vm_compute; reflexivity|].
  eapply (listIntegrations_sorted_deterministic Sample.transport
            Sample.parseDsn Sample.env Sample.env
            (Sample.with_Integrations
               [Sample.int_b; Sample.int_a; Sample.int_c])
            (Sample.with_Integrations
               [Sample.int_c; Sample.int_b; Sample.int_a'])).
  - intros n. cbn. set_solver.
  - vm_compute. reflexivity.
  - vm_compute. reflexivity.
Defined.

Lemma duplicate_name_last_registration_wins_witness :
  ∃ c,
    result (NewClient Sample.transport Sample.parseDsn Sample.env
              (Sample.with_Integrations
                 [Sample.int_b; Sample.int_a; Sample.int_c; Sample.int_a']))
    = (Some c, None)
    ∧ (∃ m, integrations c = Some m ∧ m !! "a" = Some Sample.int_a')
    ∧ filter (λ n, n = "a") (listIntegrations c) = ["a"]
    ∧ setup_calls
        (trace (NewClient Sample.transport Sample.parseDsn Sample.env
                  (Sample.with_Integrations
                     [Sample.int_b; Sample.int_a; Sample.int_c;
                      Sample.int_a'])))
      = [Sample.int_b; Sample.int_a; Sample.int_c; Sample.int_a'].
Proof.
  eexists. split; [vm_compute; reflexivity|].
  apply (duplicate_name_last_registration_wins Sample.transport
           Sample.parseDsn Sample.env
           (Sample.with_Integrations
              [Sample.int_b; Sample.int_a; Sample.int_c; Sample.int_a'])
           _ [Sample.int_b] [Sample.int_c] [] Sample.int_a Sample.int_a').
  - reflexivity.
  - reflexivity.
  - intros j []%elem_of_nil.
  - vm_compute. reflexivity.
Defined.

(* ================================================================== *)
(** ** Further properties of the pipeline *)
(* ================================================================== *)

Section Outcomes.

Variable VERSION : string.
Variables (env : Env) (client : Client) (event : Event).
Variables (hint : option EventHint) (scope : EventModifier).

(** Every way [processEvent] can end, with what it returns and the calls it
    made. *)
Lemma processEvent_outcomes :
  ∃ prepared,
    prepareEvent VERSION env client event hint scope
      = (ApplyToEvent scope prepared hint, [Scope_ApplyToEvent prepared hint])
    ∧ ((float32_ne (SampleRate (Options client)) float32_zero = true
        ∧ float32_gt (rand_Float32 env (time_Now_UnixNano env))
            (SampleRate (Options client)) = true
        ∧ processEvent VERSION env client event hint scope
          = ((None, Some (Errorf "event dropped due to SampleRate hit")),
             [rand_draw (time_Now_UnixNano env)]))
       ∨ ∃ pre,
           ((float32_ne (SampleRate (Options client)) float32_zero = true
             ∧ float32_gt (rand_Float32 env (time_Now_UnixNano env))
                 (SampleRate (Options client)) = false
             ∧ pre = [rand_draw (time_Now_UnixNano env)])
            ∨ (float32_ne (SampleRate (Options client)) float32_zero = false
               ∧ pre = []))
           ∧ ((ApplyToEvent scope prepared hint = None
               ∧ processEvent VERSION env client event hint scope
                 = ((None,
                     Some (Errorf
                             "event dropped by one of the EventProcessors")),
                    pre ++ [Scope_ApplyToEvent prepared hint]))
              ∨ (∃ e1,
                   ApplyToEvent scope prepared hint = Some e1
                   ∧ BeforeSend (Options client) = None
                   ∧ processEvent VERSION env client event hint scope
                     = (SendEvent (Client_Transport client) e1,
                        pre ++ [Scope_ApplyToEvent prepared hint;
                                Transport_SendEvent e1]))
              ∨ (∃ e1 f,
                   ApplyToEvent scope prepared hint = Some e1
                   ∧ BeforeSend (Options client) = Some f
                   ∧ f e1 (filter_hint hint) = None
                   ∧ processEvent VERSION env client event hint scope
                     = ((None,
                         Some (Errorf
                                 "event dropped due to BeforeSend callback")),
                        pre ++ [Scope_ApplyToEvent prepared hint;
                                Options_BeforeSend e1 (filter_hint hint)]))
              ∨ (∃ e1 f e2,
                   ApplyToEvent scope prepared hint = Some e1
                   ∧ BeforeSend (Options client) = Some f
                   ∧ f e1 (filter_hint hint) = Some e2
                   ∧ processEvent VERSION env client event hint scope
                     = (SendEvent (Client_Transport client) e2,
                        pre ++ [Scope_ApplyToEvent prepared hint;
                                Options_BeforeSend e1 (filter_hint hint);
                                Transport_SendEvent e2])))).
Proof.
  destruct (prepareEvent_shape VERSION env client event hint scope)
    as (prepared & Hp & _).
  exists prepared. split; [exact Hp|].
  unfold processEvent, filter_hint. rewrite Hp.
  destruct (float32_ne _ _) eqn:Hne; cbn;
    [destruct (float32_gt _ _) eqn:Hgt; cbn; [by left|] |];
    right; eexists; (split; [first [by left | by right]|]);
    (destruct (ApplyToEvent scope prepared hint) as [e1|] eqn:Hs; cbn;
     [|by left]);
    (destruct (BeforeSend (Options client)) as [f|] eqn:Hb; cbn;
     [|right; left; by exists e1]);
    (destruct (f e1 _) as [e2|] eqn:Hf; cbn;
     [do 3 right; by exists e1, f, e2 | right; right; left; by exists e1, f]).
Qed.

(** Case split over [processEvent_outcomes]: the run is rewritten to its
    result and trace in every case. *)
Ltac pipeline_cases prepared :=
  let Hrun := fresh "Hrun" in
  destruct processEvent_outcomes
    as (prepared & ? &
        [(? & ? & Hrun)
        |(? & [(? & ? & ->)|(? & ->)] &
          [(? & Hrun)
          |[(? & ? & ? & Hrun)
           |[(? & ? & ? & ? & ? & Hrun)
            |(? & ? & ? & ? & ? & ? & Hrun)]]])]);
  rewrite ?Hrun in *; cbn [result trace fst snd app] in *.

(** X1. When the rate is not zero and the draw exceeds it, [processEvent]
    returns no response and the error "event dropped due to SampleRate
    hit", and the draw is the only call it made. *)
Theorem processEvent_sampled_out :
  float32_ne (SampleRate (Options client)) float32_zero = true →
  float32_gt (rand_Float32 env (time_Now_UnixNano env))
    (SampleRate (Options client)) = true →
  processEvent VERSION env client event hint scope
  = ((None, Some (Errorf "event dropped due to SampleRate hit")),
     [rand_draw (time_Now_UnixNano env)]).
Proof.
  intros Hne Hgt. pipeline_cases prepared; congruence.
Qed.

(** X2. When the scope was asked and returned no event, [processEvent]
    returns no response and the error "event dropped by one of the
    EventProcessors". *)
Theorem processEvent_scope_veto (e : Event) (h : option EventHint) :
  Scope_ApplyToEvent e h
    ∈ trace (processEvent VERSION env client event hint scope) →
  ApplyToEvent scope e h = None →
  result (processEvent VERSION env client event hint scope)
  = (None, Some (Errorf "event dropped by one of the EventProcessors")).
Proof.
  intros Hin Hnone. pipeline_cases prepared; try done;
    try (by apply list_elem_of_singleton in Hin);
    assert (e = prepared ∧ h = hint) as [-> ->] by set_solver; congruence.
Qed.

(** X3. When the configured [BeforeSend] was asked and returned no event,
    [processEvent] returns no response and the error "event dropped due to
    BeforeSend callback". *)
Theorem processEvent_filter_veto
    (f : Event → option EventHint → option Event)
    (e : Event) (h : option EventHint) :
  BeforeSend (Options client) = Some f →
  Options_BeforeSend e h
    ∈ trace (processEvent VERSION env client event hint scope) →
  f e h = None →
  result (processEvent VERSION env client event hint scope)
  = (None, Some (Errorf "event dropped due to BeforeSend callback")).
Proof.
  intros Hf Hin Hnone. pipeline_cases prepared; try done;
    try (exfalso; set_solver);
    match goal with
    | Hsome : ?f' ?e1 (filter_hint hint) = Some _ |- _ =>
        assert (e = e1 ∧ h = filter_hint hint) as [-> ->] by set_solver;
        congruence
    end.
Qed.

(** X4. When the transport was handed an event, [processEvent] returns
    exactly what [SendEvent] answered for it, response and error alike; and
    that event is what the last stage before produced: the event
    [BeforeSend] returned when there is one, else the event the scope
    returned. *)
Theorem processEvent_returns_transport_answer (e : Event) :
  Transport_SendEvent e
    ∈ trace (processEvent VERSION env client event hint scope) →
  result (processEvent VERSION env client event hint scope)
  = SendEvent (Client_Transport client) e
  ∧ match BeforeSend (Options client) with
    | Some f =>
        ∃ e1, Options_BeforeSend e1 (filter_hint hint)
                ∈ trace (processEvent VERSION env client event hint scope)
              ∧ f e1 (filter_hint hint) = Some e
    | None =>
        ∃ p, Scope_ApplyToEvent p hint
               ∈ trace (processEvent VERSION env client event hint scope)
             ∧ ApplyToEvent scope p hint = Some e
    end.
Proof.
  intros Hin. pipeline_cases prepared; try (exfalso; set_solver);
    match goal with
    | Hb : BeforeSend (Options client) = _ |- _ => rewrite Hb
    end;
    match goal with
    | |- context [SendEvent _ ?e'] =>
        assert (e = e') as -> by set_solver
    end;
    (split; [reflexivity|]); eexists; (split; [|eassumption]); set_solver.
Qed.

(** X5. The calls of [processEvent] come in one order and each at most
    once: the draw, the scope (with the caller's hint), the user filter
    (with a hint that is never nil), the transport. *)
Theorem processEvent_call_order :
  ∃ prepared e1 e2,
    trace (processEvent VERSION env client event hint scope)
    `sublist_of`
    [rand_draw (time_Now_UnixNano env);
     Scope_ApplyToEvent prepared hint;
     Options_BeforeSend e1 (filter_hint hint);
     Transport_SendEvent e2].
Proof.
  pipeline_cases prepared.
  - exists prepared, prepared, prepared.
    apply sublist_skip, sublist_nil_l.
  - exists prepared, prepared, prepared.
    repeat first [apply sublist_nil_l | apply sublist_skip].
  - eexists prepared, prepared, _. cbn.
    apply sublist_skip, sublist_skip, sublist_cons, sublist_skip, sublist_nil_l.
  - eexists prepared, _, prepared.
    repeat first [apply sublist_nil_l | apply sublist_skip].
  - eexists prepared, _, _.
    repeat first [apply sublist_nil_l | apply sublist_skip].
  - exists prepared, prepared, prepared.
    apply sublist_cons, sublist_skip, sublist_nil_l.
  - eexists prepared, prepared, _.
    apply sublist_cons, sublist_skip, sublist_cons, sublist_skip, sublist_nil_l.
  - eexists prepared, _, prepared.
    apply sublist_cons. repeat first [apply sublist_nil_l | apply sublist_skip].
  - eexists prepared, _, _.
    apply sublist_cons. repeat first [apply sublist_nil_l | apply sublist_skip].
Qed.

(** [processEvent] itself calls nothing on the logger: neither a line nor
    a change of output. *)
Lemma processEvent_never_logs (c : Call) :
  c ∈ trace (processEvent VERSION env client event hint scope) →
  log_lines [c] = [] ∧ ∀ w, c ≠ debugger_SetOutput w.
Proof.
  intros Hin.
  pipeline_cases prepared;
    repeat (apply elem_of_cons in Hin as [->|Hin]; [by split|]);
    by apply elem_of_nil in Hin.
Qed.

Lemma processEvent_delivered_iff_no_error :
  snd (result (processEvent VERSION env client event hint scope)) = None
  ↔ ∃ e, Transport_SendEvent e
           ∈ trace (processEvent VERSION env client event hint scope)
         ∧ snd (SendEvent (Client_Transport client) e) = None.
Proof.
  pipeline_cases prepared.
  all: split; [intros Hnone|intros (e & Hin & Hnone)].
  all: try discriminate Hnone.
  all: try (exfalso; set_solver).
  all: try (eexists; split; [|exact Hnone]; set_solver).
  all: match goal with
    | |- snd (SendEvent _ ?e') = None =>
        assert (e = e') as <- by set_solver; exact Hnone
    end.
Qed.

(** The calls of [CaptureEvent]: those of [processEvent], then the error it
    returned, if any, on the logger. *)
Lemma CaptureEvent_trace_exact :
  trace (CaptureEvent VERSION env client event hint scope)
  = trace (processEvent VERSION env client event hint scope)
    ++ match snd (result (processEvent VERSION env client event hint scope))
       with
       | Some err => [debugger_Println (Error err)]
       | None => []
       end.
Proof.
  unfold CaptureEvent. rewrite trace_bind.
  by destruct (snd (result _)).
Qed.

(** X6. [CaptureEvent] stays silent exactly when the event reached the
    transport and the transport reported no error; any line it logs is the
    text of the error [processEvent] returned. *)
Theorem CaptureEvent_silent_iff_delivered :
  ((∀ msg, debugger_Println msg
             ∉ trace (CaptureEvent VERSION env client event hint scope))
   ↔ ∃ e, Transport_SendEvent e
            ∈ trace (CaptureEvent VERSION env client event hint scope)
          ∧ snd (SendEvent (Client_Transport client) e) = None)
  ∧ ∀ msg, debugger_Println msg
             ∈ trace (CaptureEvent VERSION env client event hint scope) →
           ∃ err, snd (result (processEvent VERSION env client event hint
                                 scope)) = Some err
                  ∧ msg = Error err.
Proof.
  rewrite CaptureEvent_trace_exact.
  pose proof processEvent_delivered_iff_no_error as Hiff.
  assert (∀ msg, debugger_Println msg
                   ∉ trace (processEvent VERSION env client event hint scope))
    as Hquiet by (intros msg [Hin _]%processEvent_never_logs; discriminate Hin).
  destruct (snd (result _)) as [err|].
  - split; [split|].
    + intros Hsilent. exfalso. apply (Hsilent (Error err)). set_solver.
    + intros (e & [Hin|Hin]%elem_of_app & Hnone).
      * assert (Some err = None) as [=]. { apply Hiff. eauto. }
      * by apply list_elem_of_singleton in Hin.
    + intros msg [Hin|Hin]%elem_of_app; [by apply Hquiet in Hin|].
      apply list_elem_of_singleton in Hin as [= ->]. eauto.
  - rewrite app_nil_r. split; [split|].
    + intros _. by apply Hiff.
    + intros _ msg. apply Hquiet.
    + intros msg Hin. by apply Hquiet in Hin.
Qed.

End Outcomes.

(** *** What the scope is shown *)

Section Prepared.

Variable VERSION : string.
Variables (env : Env) (client : Client).
Variables (hint : option EventHint) (scope : EventModifier).

(** A scope call recorded by [processEvent] is the one [prepareEvent]
    makes. *)
Lemma processEvent_scope_call (event e : Event) (h : option EventHint) :
  Scope_ApplyToEvent e h
    ∈ trace (processEvent VERSION env client event hint scope) →
  h = hint
  ∧ trace (prepareEvent VERSION env client event hint scope)
    = [Scope_ApplyToEvent e hint].
Proof.
  intros Hin.
  destruct (processEvent_stages VERSION env client event hint scope)
    as (prepared & Hp & Ht).
  destruct (calls_after_scope_cases client hint scope prepared)
    as [(? & Hcs)
       |[(? & ? & ? & Hcs)
        |[(? & ? & ? & ? & ? & Hcs)|(? & ? & ? & ? & ? & ? & Hcs)]]];
    rewrite Hcs in Ht;
    assert (e = prepared ∧ h = hint) as [-> ->]
      by (destruct Ht as [Ht|[Ht|Ht]]; rewrite Ht in Hin; set_solver);
    done.
Qed.

Lemma CaptureEvent_scope_call (event e : Event) (h : option EventHint) :
  Scope_ApplyToEvent e h
    ∈ trace (CaptureEvent VERSION env client event hint scope) →
  h = hint
  ∧ trace (prepareEvent VERSION env client event hint scope)
    = [Scope_ApplyToEvent e hint].
Proof.
  rewrite CaptureEvent_trace_exact.
  intros [Hin|Hin]%elem_of_app; [by apply processEvent_scope_call|].
  destruct (snd (result _)); set_solver.
Qed.

(** The event a capture by message or by error shows the scope, given the
    text it was built from. *)
Lemma fresh_event_prepared (text : string) (e : Event) :
  trace (prepareEvent VERSION env client (Event_of_Message text) hint scope)
  = [Scope_ApplyToEvent e hint] →
  Message e = text
  ∧ EventID e = uuid env
  ∧ Timestamp e = time_Now_Unix env
  ∧ Level e = "info"
  ∧ ServerName e = match os_Hostname env with
                   | (hostname, None) => hostname
                   | (_, Some _) => ""
                   end.
Proof.
  destruct (prepareEvent_shape VERSION env client (Event_of_Message text)
              hint scope)
    as (prepared & -> & Hid & Hts & Hlv & Hsn & Hmsg & _).
  intros [= <-]. by rewrite Hid, Hts, Hlv, Hsn, Hmsg.
Qed.

(** X7. Whenever [CaptureMessage] gets as far as the scope, the scope is
    shown the caller's hint and an event with the message as given, a
    freshly generated identifier, the current time, level "info", and the
    host name when it could be determined. *)
Theorem CaptureMessage_fresh_event (message : string) (e : Event)
    (h : option EventHint) :
  Scope_ApplyToEvent e h
    ∈ trace (CaptureMessage VERSION env client message hint scope) →
  h = hint
  ∧ Message e = message
  ∧ EventID e = uuid env
  ∧ Timestamp e = time_Now_Unix env
  ∧ Level e = "info"
  ∧ ServerName e = match os_Hostname env with
                   | (hostname, None) => hostname
                   | (_, Some _) => ""
                   end.
Proof.
  unfold CaptureMessage, eventFromMessage.
  intros [-> Hp]%CaptureEvent_scope_call.
  split; [reflexivity|]. by apply fresh_event_prepared.
Qed.

(** X8. Whenever [CaptureException] gets as far as the scope, the scope is
    shown the caller's hint and an event whose message is the error's
    text, with a freshly generated identifier, the current time and level
    "info". *)
Theorem CaptureException_fresh_event (exception : error) (e : Event)
    (h : option EventHint) :
  Scope_ApplyToEvent e h
    ∈ trace (CaptureException VERSION env client exception hint scope) →
  h = hint
  ∧ Message e = Error exception
  ∧ EventID e = uuid env
  ∧ Timestamp e = time_Now_Unix env
  ∧ Level e = "info".
Proof.
  unfold CaptureException, eventFromException.
  intros [-> Hp]%CaptureEvent_scope_call.
  split; [reflexivity|].
  destruct (fresh_event_prepared _ _ Hp) as (? & ? & ? & ? & _). done.
Qed.

(** X9. Preparing twice keeps the first identity: when an event that
    [prepareEvent] has prepared goes through [prepareEvent] again, later and
    elsewhere, with the same client, its identifier, timestamp, level,
    message and the client's overwrites are as after the first pass; and
    if it has a server name, nothing changes at all. The first pass is
    taken to have produced an identifier and a timestamp ([uuid()] not
    empty, clock not at the epoch). *)
Theorem prepareEvent_twice (env' : Env) (event p1 p2 : Event)
    (hint' : option EventHint) (scope' : EventModifier) :
  uuid env ≠ "" →
  time_Now_Unix env ≠ 0 →
  trace (prepareEvent VERSION env client event hint scope)
  = [Scope_ApplyToEvent p1 hint] →
  trace (prepareEvent VERSION env' client p1 hint' scope')
  = [Scope_ApplyToEvent p2 hint'] →
  EventID p2 = EventID p1
  ∧ Timestamp p2 = Timestamp p1
  ∧ Level p2 = Level p1
  ∧ Message p2 = Message p1
  ∧ Sdk p2 = Sdk p1
  ∧ Platform p2 = Platform p1
  ∧ Transaction p2 = Transaction p1
  ∧ (ServerName p1 ≠ "" → p2 = p1).
Proof.
  intros Huuid Hnow.
  destruct (prepareEvent_shape VERSION env client event hint scope)
    as (q1 & -> & Hid1 & Hts1 & Hlv1 & _ & _ & Hsdk1 & Hpl1 & Htx1).
  intros [= <-].
  destruct (prepareEvent_shape VERSION env' client q1 hint' scope')
    as (q2 & -> & Hid2 & Hts2 & Hlv2 & Hsn2 & Hmsg2 & Hsdk2 & Hpl2 & Htx2).
  intros [= <-].
  assert (EventID q1 ≠ "") as Hne1.
  { rewrite Hid1. destruct (String.eqb_spec (EventID event) ""); congruence. }
  assert (Timestamp q1 ≠ 0) as Hne2.
  { rewrite Hts1. destruct (Z.eqb_spec (Timestamp event) 0); congruence. }
  assert (Level q1 ≠ "") as Hne3.
  { rewrite Hlv1. by destruct (String.eqb_spec (Level event) ""). }
  apply String.eqb_neq in Hne1, Hne3. apply Z.eqb_neq in Hne2.
  rewrite Hne1 in Hid2. rewrite Hne2 in Hts2. rewrite Hne3 in Hlv2.
  repeat split; try congruence.
  intros Hsn%String.eqb_neq. rewrite Hsn in Hsn2.
  destruct q1, q2; cbn in *; congruence.
Qed.

End Prepared.

(** X15. Every event a client built by [NewClient] shows the scope carries,
    as the SDK's integration list, the names of the configured
    integrations, each once and in increasing order; the SDK and the
    platform are named "sentry.go" and "go". *)
Theorem constructed_client_tags_events (HTTPTransport : Transport)
    (parseDsn : string → DsnT + error) (VERSION : string) (env env' : Env)
    (opts : ClientOptions) (c : Client) (event : Event)
    (hint : option EventHint) (scope : EventModifier)
    (e : Event) (h : option EventHint) :
  result (NewClient HTTPTransport parseDsn env opts) = (Some c, None) →
  Scope_ApplyToEvent e h
    ∈ trace (processEvent VERSION env' c event hint scope) →
  Sorted String.le (SdkInfo_Integrations (Sdk e))
  ∧ NoDup (SdkInfo_Integrations (Sdk e))
  ∧ (∀ n, n ∈ SdkInfo_Integrations (Sdk e)
          ↔ n ∈ Name <$> default [] (Integrations opts))
  ∧ SdkInfo_Name (Sdk e) = "sentry.go"
  ∧ SdkInfo_Version (Sdk e) = VERSION
  ∧ Platform e = "go".
Proof.
  intros Hc [-> Hp]%processEvent_scope_call.
  destruct (prepareEvent_shape VERSION env' c event hint scope)
    as (q & Hq & _ & _ & _ & _ & _ & Hsdk & Hpl & _).
  rewrite Hq in Hp. injection Hp as <-. rewrite Hsdk, Hpl. cbn.
  split; [apply sort_Strings_Sorted|].
  split; [apply listIntegrations_NoDup|].
  split; [by apply (NewClient_listing HTTPTransport parseDsn env)|done].
Qed.

(** *** Sampling at the edges *)

Ltac float_order :=
  repeat match goal with
  | H : context [(?a ?= ?b)%Z] |- _ => destruct (Z.compare_spec a b)
  | |- context [(?a ?= ?b)%Z] => destruct (Z.compare_spec a b)
  | H : context [Pos.compare_cont Eq ?a ?b] |- _ =>
      change (Pos.compare_cont Eq a b) with (Pos.compare a b) in *;
      destruct (Pos.compare_spec a b)
  | |- context [Pos.compare_cont Eq ?a ?b] =>
      change (Pos.compare_cont Eq a b) with (Pos.compare a b) in *;
      destruct (Pos.compare_spec a b)
  end; subst; try discriminate; try reflexivity; try lia.

(** A draw below one does not exceed a rate of one or more. *)
Lemma float32_draw_not_above_rate (d r : float32) :
  SFltb d float32_one = true → SFleb float32_one r = true →
  float32_ne r float32_zero = true ∧ float32_gt d r = false.
Proof.
  unfold float32_ne, float32_gt, SFeqb, SFltb, SFleb, float32_one, float32_zero.
  destruct d as [sd|sd| |sd md ed], r as [sr|sr| |sr mr er];
    cbn [SFcompare]; try discriminate;
    try destruct sd; try destruct sr; try discriminate;
    intros Hd Hr; (split; [reflexivity|]); try reflexivity.
  float_order.
Qed.

(** A draw that is not negative exceeds every negative rate. *)
Lemma float32_draw_above_negative_rate (d r : float32) :
  SFltb r float32_zero = true → SFleb float32_zero d = true →
  float32_ne r float32_zero = true ∧ float32_gt d r = true.
Proof.
  unfold float32_ne, float32_gt, SFeqb, SFltb, SFleb, float32_zero.
  destruct d as [sd|sd| |sd md ed], r as [sr|sr| |sr mr er];
    cbn [SFcompare]; try discriminate;
    try destruct sd; try destruct sr; try discriminate;
    intros Hr Hd; by split.
Qed.

Section Sampling_edges.

Variable VERSION : string.
Variables (env : Env) (client : Client) (event : Event).
Variables (hint : option EventHint) (scope : EventModifier).

(** X16. A negative sampling rate drops every event: whatever number in
    [[0,1)] is drawn, [processEvent] returns the sampling error and calls
    neither scope, filter nor transport. *)
Theorem processEvent_negative_rate_drops_all :
  SFltb (SampleRate (Options client)) float32_zero = true →
  in_unit_interval (rand_Float32 env (time_Now_UnixNano env)) →
  processEvent VERSION env client event hint scope
  = ((None, Some (Errorf "event dropped due to SampleRate hit")),
     [rand_draw (time_Now_UnixNano env)]).
Proof.
  intros Hrate [Hdraw _].
  destruct (float32_draw_above_negative_rate _ _ Hrate Hdraw) as [Hne Hgt].
  destruct (processEvent_outcomes VERSION env client event hint scope)
    as (prepared & _ & [(_ & _ & Hrun)|(pre & [(_ & Hgt' & _)|(Hne' & _)] & _)]);
    [exact Hrun|congruence..].
Qed.

(** X17. A sampling rate of one or more (infinity included), or one that
    is not a number, never drops: whatever number in [[0,1)] is drawn, the
    draw is followed by the scope call on the prepared event. *)
Theorem processEvent_rate_at_least_one_never_drops :
  SFleb float32_one (SampleRate (Options client)) = true
  ∨ SampleRate (Options client) = S754_nan →
  in_unit_interval (rand_Float32 env (time_Now_UnixNano env)) →
  ∃ prepared rest,
    trace (prepareEvent VERSION env client event hint scope)
      = [Scope_ApplyToEvent prepared hint]
    ∧ trace (processEvent VERSION env client event hint scope)
      = rand_draw (time_Now_UnixNano env)
        :: Scope_ApplyToEvent prepared hint :: rest.
Proof.
  intros Hrate [_ Hdraw].
  assert (float32_ne (SampleRate (Options client)) float32_zero = true
          ∧ float32_gt (rand_Float32 env (time_Now_UnixNano env))
              (SampleRate (Options client)) = false) as [Hne Hgt].
  { destruct Hrate as [Hrate| ->].
    - by apply float32_draw_not_above_rate.
    - split; [reflexivity|].
      unfold float32_gt, SFltb. by destruct (rand_Float32 _ _). }
  destruct (processEvent_trace VERSION env client event hint scope)
    as (prepared & Hp & Ht).
  rewrite Hne, Hgt in Ht. eauto.
Qed.

End Sampling_edges.

(* ================================================================== *)
(** ** Further properties of construction *)
(* ================================================================== *)

(** The calls of the loop of [setupIntegrations]. *)
Lemma setupIntegrations_loop_trace (l : list Integration)
    (m : gmap string Integration) :
  trace (setupIntegrations_loop l m) = install_calls l.
Proof.
  revert m. induction l as [|i rest IH]; intros m; [reflexivity|].
  destruct (setupIntegrations_loop_cons i rest m) as [_ ->].
  by rewrite IH.
Qed.

Lemma filter_Name_not_elem_of (l : list Integration) (n : string) :
  n ∉ Name <$> l → filter (λ j, Name j = n) l = [].
Proof.
  induction l as [|j l IH]; [done|].
  rewrite fmap_cons. intros [Hj Hl]%not_elem_of_cons.
  rewrite filter_cons, decide_False by done. auto.
Qed.

(** With distinct names, the registrations under the name of [i] are [i]
    alone. *)
Lemma filter_Name_NoDup (l : list Integration) (i : Integration) :
  NoDup (Name <$> l) → i ∈ l → filter (λ j, Name j = Name i) l = [i].
Proof.
  induction l as [|j l IH]; [by intros _ ?%elem_of_nil|].
  rewrite fmap_cons, NoDup_cons. intros [Hj Hl].
  rewrite filter_cons. intros [->|Hi]%elem_of_cons.
  - rewrite decide_True by done. f_equal.
    by apply filter_Name_not_elem_of.
  - rewrite decide_False; [by apply IH|].
    intros Heq. apply Hj. rewrite Heq. by apply list_elem_of_fmap_2.
Qed.

(** The logger under a trace that never calls [SetOutput]. *)
Lemma debugger_run_no_SetOutput (sink : Sink) (tr : list Call) :
  (∀ w, debugger_SetOutput w ∉ tr) →
  debugger_run sink tr
  = (sink, match sink with
           | Some w => pair w <$> log_lines tr
           | None => []
           end).
Proof.
  induction tr as [|c tr IH]; intros Hno; [by destruct sink|].
  assert (∀ w, debugger_SetOutput w ∉ tr) as Hno'
    by (intros w Hin; apply (Hno w); by right).
  specialize (IH Hno').
  destruct c; cbn [debugger_run]; rewrite ?IH; try (by destruct sink).
  exfalso. apply (Hno w). by left.
Qed.

Lemma install_calls_no_SetOutput (l : list Integration) (w : Writer) :
  debugger_SetOutput w ∉ install_calls l.
Proof.
  unfold install_calls. induction l as [|i l IH]; [by intros ?%elem_of_nil|].
  cbn. intros [[=]|[[=]|Hin]%elem_of_cons]%elem_of_cons. by apply IH.
Qed.

Section Construction_more.

Variable HTTPTransport : Transport.
Variable parseDsn : string → DsnT + error.
Variables (env : Env) (opts : ClientOptions).

(** The trace of a construction that went through. *)
Lemma NewClient_success_trace (c : Client) :
  result (NewClient HTTPTransport parseDsn env opts) = (Some c, None) →
  options c = options_after_fallbacks env opts
  ∧ Client_Transport c = default HTTPTransport (Options_Transport opts)
  ∧ trace (NewClient HTTPTransport parseDsn env opts)
    = debug_setup opts
      ++ match dsn c with None => [empty_Dsn_notice] | Some _ => [] end
      ++ Transport_Configure (Client_Transport c) (options c)
      :: install_calls (default [] (Integrations opts)).
Proof.
  rewrite NewClient_unfold. cbv zeta.
  destruct (Dsn_after_fallbacks env opts) as (_ & -> & ->).
  destruct (NewDsn _ _) as [d [err|]]; [by intros [=]|].
  intros [= <-]. cbn. split; [done|]. split; [done|].
  do 3 f_equal.
  destruct (Integrations opts) as [l|]; cbn [default]; [|done].
  apply setupIntegrations_loop_trace.
Qed.

(** X10. A construction that fails has touched nothing: the only call
    [NewClient] may have made is the redirection of the logger; no
    transport was configured, no integration set up, nothing logged. *)
Theorem NewClient_failure_touches_nothing (err : error) (c : Call) :
  result (NewClient HTTPTransport parseDsn env opts) = (None, Some err) →
  c ∈ trace (NewClient HTTPTransport parseDsn env opts) →
  c = debugger_SetOutput (default os_Stdout (DebugWriter opts))
  ∧ Debug opts = true.
Proof.
  rewrite NewClient_unfold. cbv zeta.
  destruct (NewDsn _ _) as [d [err'|]]; [|by intros [=]].
  intros _. cbn. unfold debug_setup.
  destruct (Debug opts); [|by intros ?%elem_of_nil].
  by intros ->%list_elem_of_singleton.
Qed.

(** X11. The options of a constructed client are the caller's, except that
    an empty [Dsn], [Release] or [Environment] is filled in from
    [SENTRY_DSN], [SENTRY_RELEASE], [SENTRY_ENVIRONMENT]; a field the
    caller did set is never replaced by the environment. *)
Theorem NewClient_environment_fallbacks (c : Client) :
  result (NewClient HTTPTransport parseDsn env opts) = (Some c, None) →
  Dsn (Options c)
    = (if String.eqb (Dsn opts) "" then os_Getenv env "SENTRY_DSN"
       else Dsn opts)
  ∧ Release (Options c)
    = (if String.eqb (Release opts) "" then os_Getenv env "SENTRY_RELEASE"
       else Release opts)
  ∧ Environment (Options c)
    = (if String.eqb (Environment opts) ""
       then os_Getenv env "SENTRY_ENVIRONMENT" else Environment opts)
  ∧ Debug (Options c) = Debug opts
  ∧ SampleRate (Options c) = SampleRate opts
  ∧ BeforeSend (Options c) = BeforeSend opts
  ∧ BeforeBreadcrumb (Options c) = BeforeBreadcrumb opts
  ∧ Integrations (Options c) = Integrations opts
  ∧ Options_Transport (Options c) = Options_Transport opts
  ∧ Options_ServerName (Options c) = Options_ServerName opts
  ∧ Dist (Options c) = Dist opts
  ∧ MaxBreadcrumbs (Options c) = MaxBreadcrumbs opts
  ∧ DebugWriter (Options c) = DebugWriter opts.
Proof.
  intros (Ho & _)%NewClient_success_trace. unfold Options. rewrite Ho.
  unfold options_after_fallbacks. cbv zeta.
  destruct (String.eqb (Dsn opts) ""); cbn;
    destruct (String.eqb (Release opts) ""); cbn;
    destruct (String.eqb (Environment opts) ""); cbn; done.
Qed.

(** X12. A construction that goes through configures one transport, once,
    before any integration is set up: the caller's transport, or the
    default one when none was given, with the very options the client
    keeps. Then every configured integration, in input order, has its hook
    run and its installation logged. Before that, [NewClient] has at most
    redirected the logger and logged the empty-descriptor notice. *)
Theorem NewClient_construction_order (c : Client) :
  result (NewClient HTTPTransport parseDsn env opts) = (Some c, None) →
  Client_Transport c = default HTTPTransport (Options_Transport opts)
  ∧ configure_calls (trace (NewClient HTTPTransport parseDsn env opts))
    = [(Client_Transport c, Options c)]
  ∧ ∃ before,
      trace (NewClient HTTPTransport parseDsn env opts)
      = before
        ++ Transport_Configure (Client_Transport c) (Options c)
        :: install_calls (default [] (Integrations opts))
      ∧ ∀ x, x ∈ before →
             (∃ w, x = debugger_SetOutput w) ∨ x = empty_Dsn_notice.
Proof.
  intros (Ho & Ht & ->)%NewClient_success_trace.
  split; [exact Ht|]. split.
  - unfold configure_calls, debug_setup. rewrite !omap_app. cbn.
    assert (omap (λ c0, match c0 with
                        | Transport_Configure t o => Some (t, o)
                        | _ => None
                        end)
              (install_calls (default [] (Integrations opts))) = []) as ->.
    { unfold install_calls.
      induction (default [] (Integrations opts)) as [|i l IH]; [done|].
      cbn. exact IH. }
    by destruct (Debug opts), (dsn c).
  - eexists. rewrite app_assoc. split; [reflexivity|].
    unfold debug_setup. intros x [Hx|Hx]%elem_of_app.
    + destruct (Debug opts); [|by apply elem_of_nil in Hx].
      apply list_elem_of_singleton in Hx. eauto.
    + destruct (dsn c); [by apply elem_of_nil in Hx|].
      apply list_elem_of_singleton in Hx. by right.
Qed.

(** X13. The registry of a constructed client is absent exactly when no
    integration list was configured, and the listing is empty exactly when
    no integration was configured, whether the list was absent or empty. *)
Theorem NewClient_without_integrations (c : Client) :
  result (NewClient HTTPTransport parseDsn env opts) = (Some c, None) →
  (integrations c = None ↔ Integrations opts = None)
  ∧ (listIntegrations c = [] ↔ default [] (Integrations opts) = []).
Proof.
  intros Hc.
  destruct (NewClient_registry HTTPTransport parseDsn env opts c Hc)
    as [Hreg _].
  pose proof (NewClient_listing HTTPTransport parseDsn env opts c Hc)
    as Hlist.
  split.
  - rewrite Hreg. by destruct (Integrations opts).
  - split.
    + intros Hnil. rewrite Hnil in Hlist.
      destruct (default [] (Integrations opts)) as [|i l]; [done|].
      exfalso. apply (elem_of_nil (Name i)), Hlist. by left.
    + intros Hnil. rewrite Hnil in Hlist.
      destruct (listIntegrations c) as [|n ns]; [done|].
      exfalso. apply (elem_of_nil n), Hlist. by left.
Qed.

(** X14. When the configured integrations have distinct names, every one
    of them is found in the registry under its own name, and the listing
    is a rearrangement of their names: nothing is lost. *)
Theorem NewClient_distinct_names_all_kept (c : Client)
    (l : list Integration) :
  Integrations opts = Some l →
  NoDup (Name <$> l) →
  result (NewClient HTTPTransport parseDsn env opts) = (Some c, None) →
  (∃ m, integrations c = Some m ∧ ∀ i, i ∈ l → m !! Name i = Some i)
  ∧ listIntegrations c ≡ₚ Name <$> l
  ∧ length (listIntegrations c) = length l.
Proof.
  intros Hl Hnodup Hc.
  destruct (NewClient_registry HTTPTransport parseDsn env opts c Hc)
    as [Hreg _].
  rewrite Hl in Hreg. cbn in Hreg.
  assert (listIntegrations c ≡ₚ Name <$> l) as Hperm.
  { apply NoDup_Permutation; [apply listIntegrations_NoDup|done|].
    intros n.
    rewrite (NewClient_listing HTTPTransport parseDsn env opts c Hc), Hl.
    done. }
  split; [|split; [exact Hperm|]].
  - eexists. split; [exact Hreg|]. intros i Hi.
    rewrite setupIntegrations_loop_lookup.
    by rewrite (filter_Name_NoDup l i Hnodup Hi).
  - by rewrite Hperm, length_fmap.
Qed.

(** *** The logger *)

Lemma NewClient_after_debug_setup :
  ∃ rest,
    trace (NewClient HTTPTransport parseDsn env opts)
    = debug_setup opts ++ rest
    ∧ ∀ w, debugger_SetOutput w ∉ rest.
Proof.
  rewrite NewClient_unfold. cbv zeta.
  destruct (NewDsn _ _) as [d [err|]]; cbn [trace snd].
  - exists []. rewrite app_nil_r. split; [done|]. by intros w ?%elem_of_nil.
  - eexists. split; [reflexivity|].
    intros w [Hin|[[=]|Hin]%elem_of_cons]%elem_of_app.
    + destruct d; [by apply elem_of_nil in Hin|].
      by apply list_elem_of_singleton in Hin.
    + destruct (Integrations _) as [l|]; [|by apply elem_of_nil in Hin].
      rewrite setupIntegrations_loop_trace in Hin.
      by apply install_calls_no_SetOutput in Hin.
Qed.

(** X18. Without the debug flag [NewClient] leaves the logger's output as
    it found it: a logger still on [ioutil.Discard] writes nothing of what
    the construction logs, and a logger some earlier construction had
    redirected keeps writing to that writer. *)
Theorem NewClient_without_Debug_keeps_sink (sink : Sink) :
  Debug opts = false →
  debugger_run sink (trace (NewClient HTTPTransport parseDsn env opts))
  = (sink,
     match sink with
     | Some w =>
         pair w
           <$> log_lines (trace (NewClient HTTPTransport parseDsn env opts))
     | None => []
     end).
Proof.
  intros Hdebug. destruct NewClient_after_debug_setup as (rest & -> & Hno).
  unfold debug_setup. rewrite Hdebug. cbn [app].
  by apply debugger_run_no_SetOutput.
Qed.

(** X19. With the debug flag [NewClient] redirects the logger before it
    logs anything: whatever the output was, it is [DebugWriter] from then
    on, or [os.Stdout] when none was given, and every line this
    construction logs is written there. *)
Theorem NewClient_with_Debug_redirects_first (sink : Sink) :
  Debug opts = true →
  debugger_run sink (trace (NewClient HTTPTransport parseDsn env opts))
  = (Some (default os_Stdout (DebugWriter opts)),
     pair (default os_Stdout (DebugWriter opts))
       <$> log_lines (trace (NewClient HTTPTransport parseDsn env opts))).
Proof.
  intros Hdebug. destruct NewClient_after_debug_setup as (rest & -> & Hno).
  unfold debug_setup. rewrite Hdebug. cbn [app debugger_run].
  by rewrite (debugger_run_no_SetOutput _ rest Hno).
Qed.

End Construction_more.

(** X20. A capture never touches the logger's output. With the logger on
    [ioutil.Discard], as it is until a client is constructed with the
    debug flag, nothing is written, whatever happened to the event; with a
    writer set, the one line written is the error [processEvent] returned,
    if it returned one. *)
Theorem CaptureEvent_logger (VERSION : string) (env : Env) (client : Client)
    (event : Event) (hint : option EventHint) (scope : EventModifier)
    (sink : Sink) :
  debugger_run sink (trace (CaptureEvent VERSION env client event hint scope))
  = (sink,
     match sink, snd (result (processEvent VERSION env client event hint
                                scope)) with
     | Some w, Some err => [(w, Line_Println (Error err))]
     | _, _ => []
     end).
Proof.
  assert (log_lines (trace (processEvent VERSION env client event hint scope))
          = []) as Hlines.
  { pose proof (processEvent_never_logs VERSION env client event hint scope)
      as Hquiet.
    induction (trace (processEvent VERSION env client event hint scope))
      as [|c tr IH]; [done|].
    destruct (Hquiet c (list_elem_of_here _ _)) as [Hc _].
    assert (log_lines (c :: tr) = log_lines [c] ++ log_lines tr) as ->
      by apply (omap_app _ [c] tr).
    rewrite Hc. apply IH. intros x Hx. apply Hquiet. by right. }
  rewrite debugger_run_no_SetOutput.
  - f_equal. destruct sink as [w|]; [|done].
    rewrite CaptureEvent_trace_exact. unfold log_lines in *.
    rewrite omap_app, Hlines.
    by destruct (snd (result _)).
  - intros w. rewrite CaptureEvent_trace_exact.
    intros [[_ Hin]%processEvent_never_logs|Hin]%elem_of_app;
      [by apply (Hin w)|].
    destruct (snd (result _)); set_solver.
Qed.

(* ================================================================== *)
(** ** The further properties at work on concrete runs *)
(* ================================================================== *)

Lemma processEvent_sampled_out_witness :
  float32_ne (SampleRate (Options Edge.client_quarter)) float32_zero = true
  ∧ float32_gt (rand_Float32 Sample.env (time_Now_UnixNano Sample.env))
      (SampleRate (Options Edge.client_quarter)) = true
  ∧ processEvent Sample.VERSION Sample.env Edge.client_quarter Sample.event
      None Sample.scope_id
    = ((None, Some (Errorf "event dropped due to SampleRate hit")),
       [rand_draw (time_Now_UnixNano Sample.env)]).
Proof.
  split; [reflexivity|]. split; [reflexivity|].
  apply (processEvent_sampled_out Sample.VERSION Sample.env
           Edge.client_quarter Sample.event None Sample.scope_id);
    reflexivity.
Defined.

Lemma processEvent_scope_veto_witness :
  Scope_ApplyToEvent Sample.prepared None
    ∈ trace (processEvent Sample.VERSION Sample.env Sample.client_keep
               Sample.event None Sample.scope_veto)
  ∧ ApplyToEvent Sample.scope_veto Sample.prepared None = None
  ∧ result (processEvent Sample.VERSION Sample.env Sample.client_keep
              Sample.event None Sample.scope_veto)
    = (None, Some (Errorf "event dropped by one of the EventProcessors")).
Proof.
  assert (Scope_ApplyToEvent Sample.prepared None
            ∈ trace (processEvent Sample.VERSION Sample.env Sample.client_keep
                       Sample.event None Sample.scope_veto)) as Hin
    by (vm_compute; apply list_elem_of_here).
  split; [exact Hin|]. split; [reflexivity|].
  apply (processEvent_scope_veto Sample.VERSION Sample.env Sample.client_keep
           Sample.event None Sample.scope_veto Sample.prepared None Hin).
  reflexivity.
Defined.

Lemma processEvent_filter_veto_witness :
  BeforeSend (Options Sample.client_reject) = Some Sample.reject
  ∧ Options_BeforeSend Sample.prepared (Some EventHint_empty)
      ∈ trace (processEvent Sample.VERSION Sample.env Sample.client_reject
                 Sample.event None Sample.scope_id)
  ∧ Sample.reject Sample.prepared (Some EventHint_empty) = None
  ∧ result (processEvent Sample.VERSION Sample.env Sample.client_reject
              Sample.event None Sample.scope_id)
    = (None, Some (Errorf "event dropped due to BeforeSend callback")).
Proof.
  assert (Options_BeforeSend Sample.prepared (Some EventHint_empty)
            ∈ trace (processEvent Sample.VERSION Sample.env
                       Sample.client_reject Sample.event None
                       Sample.scope_id)) as Hin
    by (vm_compute; apply list_elem_of_further, list_elem_of_here).
  split; [reflexivity|]. split; [exact Hin|]. split; [reflexivity|].
  apply (processEvent_filter_veto Sample.VERSION Sample.env
           Sample.client_reject Sample.event None Sample.scope_id
           Sample.reject Sample.prepared (Some EventHint_empty)
           eq_refl Hin eq_refl).
Defined.

Lemma processEvent_returns_transport_answer_witness :
  Transport_SendEvent Sample.prepared
    ∈ trace (processEvent Sample.VERSION Sample.env Edge.client_down
               Sample.event None Sample.scope_id)
  ∧ result (processEvent Sample.VERSION Sample.env Edge.client_down
              Sample.event None Sample.scope_id)
    = (None, Some (Errorf "503 Service Unavailable")).
Proof.
  assert (Transport_SendEvent Sample.prepared
            ∈ trace (processEvent Sample.VERSION Sample.env Edge.client_down
                       Sample.event None Sample.scope_id)) as Hin
    by (vm_compute; apply list_elem_of_further, list_elem_of_here).
  split; [exact Hin|].
  apply (processEvent_returns_transport_answer Sample.VERSION Sample.env
           Edge.client_down Sample.event None Sample.scope_id
           Sample.prepared Hin).
Defined.

Lemma CaptureEvent_silent_iff_delivered_witness :
  debugger_Println "503 Service Unavailable"
    ∈ trace (CaptureEvent Sample.VERSION Sample.env Edge.client_down
               Sample.event None Sample.scope_id)
  ∧ ∃ err,
      snd (result (processEvent Sample.VERSION Sample.env Edge.client_down
                     Sample.event None Sample.scope_id)) = Some err
      ∧ "503 Service Unavailable" = Error err.
Proof.
  assert (debugger_Println "503 Service Unavailable"
            ∈ trace (CaptureEvent Sample.VERSION Sample.env Edge.client_down
                       Sample.event None Sample.scope_id)) as Hin
    by (vm_compute;
        apply list_elem_of_further, list_elem_of_further, list_elem_of_here).
  split; [exact Hin|].
  apply (CaptureEvent_silent_iff_delivered Sample.VERSION Sample.env
           Edge.client_down Sample.event None Sample.scope_id).
  exact Hin.
Defined.

Lemma CaptureMessage_fresh_event_witness :
  Scope_ApplyToEvent Sample.prepared None
    ∈ trace (CaptureMessage Sample.VERSION Sample.env Sample.client_plain
               "boom" None Sample.scope_id)
  ∧ @None EventHint = None
  ∧ Message Sample.prepared = "boom"
  ∧ EventID Sample.prepared = uuid Sample.env
  ∧ Timestamp Sample.prepared = time_Now_Unix Sample.env
  ∧ Level Sample.prepared = "info"
  ∧ ServerName Sample.prepared = "build-host".
Proof.
  assert (Scope_ApplyToEvent Sample.prepared None
            ∈ trace (CaptureMessage Sample.VERSION Sample.env
                       Sample.client_plain "boom" None Sample.scope_id))
    as Hin by (vm_compute; apply list_elem_of_here).
  split; [exact Hin|].
  apply (CaptureMessage_fresh_event Sample.VERSION Sample.env
           Sample.client_plain None Sample.scope_id "boom" Sample.prepared
           None Hin).
Defined.

Lemma CaptureException_fresh_event_witness :
  Scope_ApplyToEvent Sample.prepared None
    ∈ trace (CaptureException Sample.VERSION Sample.env Sample.client_plain
               (Errorf "boom") None Sample.scope_id)
  ∧ @None EventHint = None
  ∧ Message Sample.prepared = Error (Errorf "boom")
  ∧ EventID Sample.prepared = uuid Sample.env
  ∧ Timestamp Sample.prepared = time_Now_Unix Sample.env
  ∧ Level Sample.prepared = "info".
Proof.
  assert (Scope_ApplyToEvent Sample.prepared None
            ∈ trace (CaptureException Sample.VERSION Sample.env
                       Sample.client_plain (Errorf "boom") None
                       Sample.scope_id))
    as Hin by (vm_compute; apply list_elem_of_here).
  split; [exact Hin|].
  apply (CaptureException_fresh_event Sample.VERSION Sample.env
           Sample.client_plain None Sample.scope_id (Errorf "boom")
           Sample.prepared None Hin).
Defined.

Lemma prepareEvent_twice_witness :
  uuid Sample.env ≠ ""
  ∧ time_Now_Unix Sample.env ≠ 0
  ∧ trace (prepareEvent Sample.VERSION Sample.env Sample.client_plain
             Sample.event None Sample.scope_id)
    = [Scope_ApplyToEvent Sample.prepared None]
  ∧ trace (prepareEvent Sample.VERSION Edge.env_later Sample.client_plain
             Sample.prepared None Sample.scope_veto)
    = [Scope_ApplyToEvent Sample.prepared None]
  ∧ EventID Sample.prepared = EventID Sample.prepared
  ∧ Timestamp Sample.prepared = Timestamp Sample.prepared
  ∧ Level Sample.prepared = Level Sample.prepared
  ∧ Message Sample.prepared = Message Sample.prepared
  ∧ Sdk Sample.prepared = Sdk Sample.prepared
  ∧ Platform Sample.prepared = Platform Sample.prepared
  ∧ Transaction Sample.prepared = Transaction Sample.prepared
  ∧ (ServerName Sample.prepared ≠ "" → Sample.prepared = Sample.prepared).
Proof.
  assert (uuid Sample.env ≠ "") as Huuid by (cbn; discriminate).
  assert (time_Now_Unix Sample.env ≠ 0) as Hnow by (cbn; discriminate).
  split; [exact Huuid|]. split; [exact Hnow|].
  split; [reflexivity|]. split; [reflexivity|].
  apply (prepareEvent_twice Sample.VERSION Sample.env Sample.client_plain
           None Sample.scope_id Edge.env_later Sample.event Sample.prepared
           Sample.prepared None Sample.scope_veto Huuid Hnow);
    reflexivity.
Defined.

Lemma NewClient_failure_touches_nothing_witness :
  result (NewClient Sample.transport Sample.parseDsn Sample.env
            Edge.opts_debug_bad)
  = (None, Some (Errorf "invalid scheme"))
  ∧ debugger_SetOutput os_Stdout
      ∈ trace (NewClient Sample.transport Sample.parseDsn Sample.env
                 Edge.opts_debug_bad)
  ∧ debugger_SetOutput os_Stdout
    = debugger_SetOutput (default os_Stdout (DebugWriter Edge.opts_debug_bad))
  ∧ Debug Edge.opts_debug_bad = true.
Proof.
  assert (debugger_SetOutput os_Stdout
            ∈ trace (NewClient Sample.transport Sample.parseDsn Sample.env
                       Edge.opts_debug_bad)) as Hin
    by (vm_compute; apply list_elem_of_here).
  split; [reflexivity|]. split; [exact Hin|].
  apply (NewClient_failure_touches_nothing Sample.transport Sample.parseDsn
           Sample.env Edge.opts_debug_bad (Errorf "invalid scheme")
           (debugger_SetOutput os_Stdout) eq_refl Hin).
Defined.

Lemma NewClient_environment_fallbacks_witness :
  ∃ c,
    result (NewClient Sample.transport Sample.parseDsn Edge.env_vars
              (Sample.opts float32_zero None None))
    = (Some c, None)
    ∧ Dsn (Options c) = "https://key@example.org/1"
    ∧ Release (Options c) = "1.2.3"
    ∧ Environment (Options c) = "staging"
    ∧ Options_Transport (Options c) = Some Sample.transport.
Proof.
  eexists. split; [vm_compute; reflexivity|].
  edestruct (NewClient_environment_fallbacks Sample.transport Sample.parseDsn
               Edge.env_vars (Sample.opts float32_zero None None))
    as (Hdsn & Hrel & Henv & _ & _ & _ & _ & _ & Htr & _);
    [vm_compute; reflexivity|].
  split; [exact Hdsn|]. split; [exact Hrel|]. split; [exact Henv|exact Htr].
Defined.

Lemma NewClient_construction_order_witness :
  ∃ c,
    result (NewClient Sample.transport Sample.parseDsn Sample.env
              Edge.opts_debug_two)
    = (Some c, None)
    ∧ Client_Transport c
      = default Sample.transport (Options_Transport Edge.opts_debug_two)
    ∧ configure_calls
        (trace (NewClient Sample.transport Sample.parseDsn Sample.env
                  Edge.opts_debug_two))
      = [(Client_Transport c, Options c)]
    ∧ ∃ before,
        trace (NewClient Sample.transport Sample.parseDsn Sample.env
                 Edge.opts_debug_two)
        = before
          ++ Transport_Configure (Client_Transport c) (Options c)
          :: install_calls (default [] (Integrations Edge.opts_debug_two))
        ∧ ∀ x, x ∈ before →
               (∃ w, x = debugger_SetOutput w) ∨ x = empty_Dsn_notice.
Proof.
  eexists. split; [vm_compute; reflexivity|].
  apply (NewClient_construction_order Sample.transport Sample.parseDsn
           Sample.env Edge.opts_debug_two).
  vm_compute. reflexivity.
Defined.

Lemma NewClient_without_integrations_witness :
  ∃ c,
    result (NewClient Sample.transport Sample.parseDsn Sample.env
              (Sample.opts float32_zero None None))
    = (Some c, None)
    ∧ (integrations c = None
       ↔ Integrations (Sample.opts float32_zero None None) = None)
    ∧ (listIntegrations c = []
       ↔ default [] (Integrations (Sample.opts float32_zero None None)) = []).
Proof.
  eexists. split; [vm_compute; reflexivity|].
  apply (NewClient_without_integrations Sample.transport Sample.parseDsn
           Sample.env (Sample.opts float32_zero None None)).
  vm_compute. reflexivity.
Defined.

Lemma NewClient_distinct_names_all_kept_witness :
  ∃ c,
    Integrations
      (Sample.with_Integrations [Sample.int_b; Sample.int_a; Sample.int_c])
    = Some [Sample.int_b; Sample.int_a; Sample.int_c]
    ∧ NoDup (Name <$> [Sample.int_b; Sample.int_a; Sample.int_c])
    ∧ result (NewClient Sample.transport Sample.parseDsn Sample.env
                (Sample.with_Integrations
                   [Sample.int_b; Sample.int_a; Sample.int_c]))
      = (Some c, None)
    ∧ (∃ m, integrations c = Some m
            ∧ ∀ i, i ∈ [Sample.int_b; Sample.int_a; Sample.int_c] →
                   m !! Name i = Some i)
    ∧ listIntegrations c
      ≡ₚ Name <$> [Sample.int_b; Sample.int_a; Sample.int_c]
    ∧ length (listIntegrations c)
      = length [Sample.int_b; Sample.int_a; Sample.int_c].
Proof.
  assert (NoDup (Name <$> [Sample.int_b; Sample.int_a; Sample.int_c]))
    as Hnodup by (cbn; repeat constructor; set_solver).
  eexists. split; [reflexivity|]. split; [exact Hnodup|].
  split; [vm_compute; reflexivity|].
  apply (NewClient_distinct_names_all_kept Sample.transport Sample.parseDsn
           Sample.env
           (Sample.with_Integrations
              [Sample.int_b; Sample.int_a; Sample.int_c])
           _ [Sample.int_b; Sample.int_a; Sample.int_c] eq_refl Hnodup).
  vm_compute. reflexivity.
Defined.

Lemma constructed_client_tags_events_witness :
  ∃ c e,
    result (NewClient Sample.transport Sample.parseDsn Sample.env
              (Sample.with_Integrations
                 [Sample.int_b; Sample.int_a; Sample.int_c]))
    = (Some c, None)
    ∧ Scope_ApplyToEvent e None
        ∈ trace (processEvent Sample.VERSION Edge.env_later c Sample.event
                   None Sample.scope_id)
    ∧ SdkInfo_Integrations (Sdk e) = ["a"; "b"; "c"]
    ∧ Sorted String.le (SdkInfo_Integrations (Sdk e))
    ∧ NoDup (SdkInfo_Integrations (Sdk e))
    ∧ (∀ n, n ∈ SdkInfo_Integrations (Sdk e)
            ↔ n ∈ Name <$> default []
                  (Integrations
                     (Sample.with_Integrations
                        [Sample.int_b; Sample.int_a; Sample.int_c])))
    ∧ SdkInfo_Name (Sdk e) = "sentry.go"
    ∧ SdkInfo_Version (Sdk e) = Sample.VERSION
    ∧ Platform e = "go".
Proof.
  eexists _, _. split; [vm_compute; reflexivity|].
  split; [vm_compute; apply list_elem_of_here|].
  split; [vm_compute; reflexivity|].
  eapply (constructed_client_tags_events Sample.transport Sample.parseDsn
            Sample.VERSION Sample.env Edge.env_later
            (Sample.with_Integrations
               [Sample.int_b; Sample.int_a; Sample.int_c])
            _ Sample.event None Sample.scope_id _ None).
  - vm_compute. reflexivity.
  - vm_compute. apply list_elem_of_here.
Defined.

Lemma processEvent_negative_rate_drops_all_witness :
  SFltb (SampleRate (Options Edge.client_negative)) float32_zero = true
  ∧ in_unit_interval
      (rand_Float32 Sample.env (time_Now_UnixNano Sample.env))
  ∧ processEvent Sample.VERSION Sample.env Edge.client_negative Sample.event
      None Sample.scope_id
    = ((None, Some (Errorf "event dropped due to SampleRate hit")),
       [rand_draw (time_Now_UnixNano Sample.env)]).
Proof.
  assert (in_unit_interval
            (rand_Float32 Sample.env (time_Now_UnixNano Sample.env))) as Hdraw
    by (split; reflexivity).
  split; [reflexivity|]. split; [exact Hdraw|].
  apply (processEvent_negative_rate_drops_all Sample.VERSION Sample.env
           Edge.client_negative Sample.event None Sample.scope_id);
    [reflexivity|exact Hdraw].
Defined.

Lemma processEvent_rate_at_least_one_never_drops_witness :
  (SFleb float32_one (SampleRate (Options Edge.client_two)) = true
   ∨ SampleRate (Options Edge.client_two) = S754_nan)
  ∧ in_unit_interval
      (rand_Float32 Sample.env (time_Now_UnixNano Sample.env))
  ∧ ∃ prepared rest,
      trace (prepareEvent Sample.VERSION Sample.env Edge.client_two
               Sample.event None Sample.scope_id)
        = [Scope_ApplyToEvent prepared None]
      ∧ trace (processEvent Sample.VERSION Sample.env Edge.client_two
                 Sample.event None Sample.scope_id)
        = rand_draw (time_Now_UnixNano Sample.env)
          :: Scope_ApplyToEvent prepared None :: rest.
Proof.
  assert (in_unit_interval
            (rand_Float32 Sample.env (time_Now_UnixNano Sample.env))) as Hdraw
    by (split; reflexivity).
  assert (SFleb float32_one (SampleRate (Options Edge.client_two)) = true
          ∨ SampleRate (Options Edge.client_two) = S754_nan) as Hrate
    by (left; reflexivity).
  split; [exact Hrate|]. split; [exact Hdraw|].
  apply (processEvent_rate_at_least_one_never_drops Sample.VERSION Sample.env
           Edge.client_two Sample.event None Sample.scope_id Hrate Hdraw).
Defined.

Lemma NewClient_without_Debug_keeps_sink_witness :
  Debug (Sample.with_Integrations [Sample.int_b; Sample.int_a]) = false
  ∧ debugger_run debugger_initial
      (trace (NewClient Sample.transport Sample.parseDsn Sample.env
                (Sample.with_Integrations [Sample.int_b; Sample.int_a])))
    = (debugger_initial, []).
Proof.
  split; [reflexivity|].
  apply (NewClient_without_Debug_keeps_sink Sample.transport Sample.parseDsn
           Sample.env (Sample.with_Integrations [Sample.int_b; Sample.int_a])
           debugger_initial).
  reflexivity.
Defined.

Lemma NewClient_with_Debug_redirects_first_witness :
  Debug Edge.opts_debug_two = true
  ∧ debugger_run debugger_initial
      (trace (NewClient Sample.transport Sample.parseDsn Sample.env
                Edge.opts_debug_two))
    = (Some os_Stdout,
       pair os_Stdout
         <$> log_lines
               (trace (NewClient Sample.transport Sample.parseDsn Sample.env
                         Edge.opts_debug_two))).
Proof.
  split; [reflexivity|].
  apply (NewClient_with_Debug_redirects_first Sample.transport
           Sample.parseDsn Sample.env Edge.opts_debug_two debugger_initial).
  reflexivity.
Defined.

(** What the debug run above writes: the notice, then one line per
    integration, all to [os.Stdout]. *)
Example debug_construction_output :
  snd (debugger_run debugger_initial
         (trace (NewClient Sample.transport Sample.parseDsn Sample.env
                   Edge.opts_debug_two)))
  = [(os_Stdout, Line_Println "Sentry client initialized with an empty DSN");
     (os_Stdout, Line_Printf "Integration installed: %s\n" "b");
     (os_Stdout, Line_Printf "Integration installed: %s\n" "a")].
Proof. vm_compute. reflexivity. Qed.
